(** * Link-backend: presence registry and message-delivery handlers

    A shallow embedding of the socket layer of the backend
    ([initializeSocket]: the [registerUser], [sendMessage], [messageRead],
    [typing], [stopTyping] and [disconnect] handlers) together with the
    part of the MySQL [messages] table those handlers touch.

    Modelling conventions.
    - [userSockets] is a plain JavaScript object used as a map from user
      id to socket id.  User ids are the integer ids of the [users] table.
      [for ... in] enumerates the keys that are array indices (below
      2^32 - 1) first, in ascending numeric order, and the other keys
      after them, in the order in which they were created; the object is
      an association list kept in that order.
    - A socket id is a string; an absent property reads as [undefined],
      which is [None] here.  [===] and truthiness are written out.
    - Every [db.query] either succeeds or calls back with an error; the
      outcome of each query a handler may issue travels with the event.
      A failed statement leaves the table unchanged.
    - A handler and the callbacks it schedules run as one step: the
      registry is read and written by one event at a time.
    - [new Date().toISOString()] timestamps are left out of the payloads.
    - What a handler does to the outside world (queries, emissions,
      console output) is returned as a list of effects in program order. *)

From Stdlib Require Import List Ascii String NArith ZArith Bool Lia Sorted Permutation.
Import ListNotations.

Local Open Scope string_scope.
Local Open Scope N_scope.
Local Open Scope list_scope.

Definition UserId := N.
Definition SocketId := string.
Definition MessageId := N.

(** ** JavaScript values used by the handlers *)

(** [v === s] for a property read [v] (possibly [undefined]) and a
    string [s]. *)
Definition strict_eq (v : option SocketId) (s : SocketId) : bool :=
  match v with
  | Some s' => String.eqb s' s
  | None => false
  end.

(** Truthiness of a property read: [undefined] and the empty string are
    falsy, every other string is truthy. *)
Definition truthy (v : option SocketId) : bool :=
  match v with
  | Some s => negb (String.eqb s EmptyString)
  | None => false
  end.

(** ** Objects with integer keys *)

(** An integer key is an array index when it is below 2^32 - 1. *)
Definition is_index (k : N) : bool := k <? 4294967295.

(** Where a new key [k] is placed with respect to an existing key [k']:
    before it when [k] is an array index and [k'] is not one or is a
    larger one. *)
Definition goes_before (k k' : N) : bool :=
  is_index k && (negb (is_index k') || (k <? k')).

(** The order of enumeration: array indices ascending, then the other
    keys.  [precedes k k'] allows [k] to come before [k']. *)
Definition precedes (k k' : N) : Prop :=
  if is_index k then is_index k' = false \/ k < k' else is_index k' = false.

(** ** The [userSockets] object *)

Module Obj.

Definition t := list (UserId * SocketId).

Definition empty : t := [].

(** [o[k]] *)
Fixpoint get (k : UserId) (o : t) : option SocketId :=
  match o with
  | [] => None
  | (k', v) :: o' => if k =? k' then Some v else get k o'
  end.

(** [o[k] = v]: an existing property keeps its place; a new key that
    is an array index takes its place in ascending order among the
    array indices, before every other key; any other new key goes to the
    end. *)
Fixpoint set (k : UserId) (v : SocketId) (o : t) : t :=
  match o with
  | [] => [(k, v)]
  | (k', v') :: o' =>
      if k =? k' then (k, v) :: o'
      else if goes_before k k' then (k, v) :: o
      else (k', v') :: set k v o'
  end.

(** [delete o[k]] *)
Definition delete (k : UserId) (o : t) : t :=
  filter (fun e => negb (fst e =? k)) o.

(** The keys in [for ... in] order. *)
Definition keys (o : t) : list UserId := map fst o.

End Obj.

(** ** The [messages] table *)

Record Message := mkMessage {
  message_id : MessageId;
  sender_id : UserId;
  receiver_id : UserId;
  message_text : string;
  delivered : bool;
  is_read : bool
}.

(** Modelled from the spec: the table definition is not part of the
    sources; a message is created unread and only becomes read through a
    read acknowledgement, so the column [is_read], which the [INSERT]
    does not list, defaults to [FALSE]. *)
Definition is_read_default : bool := false.

Record Db := mkDb {
  rows : list Message;
  next_id : MessageId   (* AUTO_INCREMENT counter of [message_id] *)
}.

Definition set_delivered (m : Message) : Message :=
  mkMessage (message_id m) (sender_id m) (receiver_id m) (message_text m)
            true (is_read m).

Definition set_is_read (m : Message) : Message :=
  mkMessage (message_id m) (sender_id m) (receiver_id m) (message_text m)
            (delivered m) true.

(** [UPDATE messages SET delivered = TRUE
     WHERE receiver_id = ? AND delivered = FALSE] *)
Definition mark_delivered (userId : UserId) (db : Db) : Db :=
  mkDb (map (fun m =>
               if (receiver_id m =? userId) && negb (delivered m)
               then set_delivered m else m) (rows db))
       (next_id db).

(** [SELECT * FROM messages
     WHERE receiver_id = ? AND delivered = TRUE AND is_read = FALSE] *)
Definition select_unread (userId : UserId) (db : Db) : list Message :=
  filter (fun m => (receiver_id m =? userId) && delivered m && negb (is_read m))
         (rows db).

(** [INSERT INTO messages (sender_id, receiver_id, message_text, timestamp,
     delivered) VALUES (?, ?, ?, NOW(), ?)]; the second component is
    [results.insertId]. *)
Definition insert_message (senderId receiverId : UserId) (text : string)
           (dlv : bool) (db : Db) : Db * MessageId :=
  (mkDb (rows db ++
           [mkMessage (next_id db) senderId receiverId text dlv is_read_default])
        (next_id db + 1),
   next_id db).

(** [SELECT COUNT( * ) AS unreadCount FROM messages
     WHERE receiver_id = ? AND is_read = FALSE] *)
Definition count_unread (receiverId : UserId) (db : Db) : N :=
  N.of_nat (List.length (filter (fun m => (receiver_id m =? receiverId)
                                     && negb (is_read m)) (rows db))).

(** [UPDATE messages SET is_read = TRUE WHERE message_id IN (?)] *)
Definition mark_read (messageIds : list MessageId) (db : Db) : Db :=
  mkDb (map (fun m =>
               if existsb (N.eqb (message_id m)) messageIds
               then set_is_read m else m) (rows db))
       (next_id db).

(** ** Events and effects *)

Record SendData := mkSendData {
  sd_senderId : UserId;
  sd_receiverId : UserId;
  sd_text : string;
  sd_tempId : N
}.

Record ReadData := mkReadData {
  rd_messageIds : option (list MessageId);   (* [None]: the field is missing *)
  rd_senderId : UserId;
  rd_receiverId : UserId
}.

Record TypingData := mkTypingData {
  td_senderId : UserId;
  td_receiverId : UserId
}.

(** An inbound event: the socket it arrives on, its payload, and the
    outcome ([true]: no error) of each query its handler may issue. *)
Inductive Event :=
| RegisterUser (socket_id : SocketId) (userId : UserId) (upd_ok sel_ok : bool)
| SendMessage (socket_id : SocketId) (data : SendData) (ins_ok cnt_ok : bool)
| MessageRead (socket_id : SocketId) (data : ReadData) (upd_ok : bool)
| Typing (socket_id : SocketId) (data : TypingData)
| StopTyping (socket_id : SocketId) (data : TypingData)
| Disconnect (socket_id : SocketId).

Inductive OutEvent :=
| messageSaved (tempId : N) (messageId : MessageId)
| unreadMessagesCount (unreadCount : N)
| receiveMessage (messageId : MessageId) (senderId : UserId) (text : string)
| messageDelivered (messageId : MessageId)
| messageReadReceipt (receiverId : UserId) (messageIds : list MessageId)
| typing (senderId receiverId : UserId)
| stopTyping (senderId receiverId : UserId).

Inductive Query :=
| QMarkDelivered (userId : UserId)
| QSelectUnread (userId : UserId)
| QInsert (senderId receiverId : UserId) (text : string) (dlv : bool)
| QCountUnread (receiverId : UserId)
| QMarkRead (messageIds : list MessageId).

Inductive Effect :=
| DbQuery (q : Query) (ok : bool)                 (* [db.query], with its outcome *)
| Emit (room : option SocketId) (e : OutEvent)    (* [io.to(room).emit(...)] *)
| ConsoleError (msg : string)                     (* the fixed part of the text *)
| ConsoleLog (msg : string).

Record State := mkState {
  userSockets : Obj.t;
  db : Db
}.

Definition initial_state : State := mkState Obj.empty (mkDb [] 1).

(** ** The handlers *)

Definition registerUser (socket_id : SocketId) (userId : UserId)
           (upd_ok sel_ok : bool) (st : State) : State * list Effect :=
  if negb (strict_eq (Obj.get userId (userSockets st)) socket_id) then
    let us := Obj.set userId socket_id (userSockets st) in
    if negb upd_ok then
      (mkState us (db st),
       [DbQuery (QMarkDelivered userId) false;
        ConsoleError "Error marking messages as delivered:"])
    else
      let db' := mark_delivered userId (db st) in
      if negb sel_ok then
        (mkState us db',
         [DbQuery (QMarkDelivered userId) true;
          ConsoleLog "All unread messages marked as delivered";
          DbQuery (QSelectUnread userId) false;
          ConsoleError "Error retrieving unread messages:"])
      else
        (mkState us db',
         [DbQuery (QMarkDelivered userId) true;
          ConsoleLog "All unread messages marked as delivered";
          DbQuery (QSelectUnread userId) true]
         ++ flat_map (fun message =>
                        let senderSocketId := Obj.get (sender_id message) us in
                        if truthy senderSocketId
                        then [Emit senderSocketId
                                   (messageDelivered (message_id message))]
                        else [])
                     (select_unread userId db'))
  else (st, []).

Definition sendMessage (data : SendData) (ins_ok cnt_ok : bool) (st : State)
  : State * list Effect :=
  let senderId := sd_senderId data in
  let receiverId := sd_receiverId data in
  let text := sd_text data in
  let tempId := sd_tempId data in
  let receiverSocketId := Obj.get receiverId (userSockets st) in
  let senderSocketId := Obj.get senderId (userSockets st) in
  let q := QInsert senderId receiverId text (truthy receiverSocketId) in
  if negb ins_ok then
    (st, [DbQuery q false; ConsoleError "Error saving message:"])
  else
    let '(db', messageId) :=
      insert_message senderId receiverId text (truthy receiverSocketId) (db st) in
    let st' := mkState (userSockets st) db' in
    let saved := Emit senderSocketId (messageSaved tempId messageId) in
    if truthy receiverSocketId then
      if negb cnt_ok then
        (st', [DbQuery q true; saved;
               DbQuery (QCountUnread receiverId) false;
               ConsoleError "Error counting unread messages:"])
      else
        let unreadCount := count_unread receiverId db' in
        (st', [DbQuery q true; saved;
               DbQuery (QCountUnread receiverId) true;
               Emit receiverSocketId (unreadMessagesCount unreadCount);
               Emit receiverSocketId (receiveMessage messageId senderId text);
               Emit senderSocketId (messageDelivered messageId)])
    else (st', [DbQuery q true; saved]).

Definition messageRead (data : ReadData) (upd_ok : bool) (st : State)
  : State * list Effect :=
  match rd_messageIds data with
  | None | Some [] => (st, [ConsoleError "No message IDs provided."])
  | Some messageIds =>
      let senderSocketId := Obj.get (rd_senderId data) (userSockets st) in
      if negb upd_ok then
        (st, [DbQuery (QMarkRead messageIds) false;
              ConsoleError "Error updating message status:"])
      else
        (mkState (userSockets st) (mark_read messageIds (db st)),
         DbQuery (QMarkRead messageIds) true ::
         (if truthy senderSocketId
          then [Emit senderSocketId
                     (messageReadReceipt (rd_receiverId data) messageIds)]
          else []))
  end.

Definition relay (mk : UserId -> UserId -> OutEvent) (data : TypingData)
           (st : State) : State * list Effect :=
  let receiverSocketId := Obj.get (td_receiverId data) (userSockets st) in
  if truthy receiverSocketId
  then (st, [Emit receiverSocketId (mk (td_senderId data) (td_receiverId data))])
  else (st, []).

(** The user the [for ... in] loop of the disconnect handler stops at. *)
Definition bound_user (socket_id : SocketId) (o : Obj.t) : option UserId :=
  find (fun userId => strict_eq (Obj.get userId o) socket_id) (Obj.keys o).

Definition disconnect (socket_id : SocketId) (st : State) : State * list Effect :=
  match bound_user socket_id (userSockets st) with
  | Some userId => (mkState (Obj.delete userId (userSockets st)) (db st), [])
  | None => (st, [])
  end.

Definition handle (st : State) (ev : Event) : State * list Effect :=
  match ev with
  | RegisterUser socket_id userId upd_ok sel_ok =>
      registerUser socket_id userId upd_ok sel_ok st
  | SendMessage _ data ins_ok cnt_ok => sendMessage data ins_ok cnt_ok st
  | MessageRead _ data upd_ok => messageRead data upd_ok st
  | Typing _ data => relay typing data st
  | StopTyping _ data => relay stopTyping data st
  | Disconnect socket_id => disconnect socket_id st
  end.

(** Running a sequence of events, oldest first. *)
Fixpoint run (st : State) (evs : list Event) : State :=
  match evs with
  | [] => st
  | ev :: evs' => run (fst (handle st ev)) evs'
  end.

Definition reachable (st : State) : Prop :=
  exists evs, st = run initial_state evs.

(** The emissions among the effects of a handler, in order. *)
Fixpoint emissions (effs : list Effect) : list (option SocketId * OutEvent) :=
  match effs with
  | [] => []
  | Emit room e :: effs' => (room, e) :: emissions effs'
  | _ :: effs' => emissions effs'
  end.

(** The queries among the effects of a handler, in order. *)
Fixpoint queries (effs : list Effect) : list Query :=
  match effs with
  | [] => []
  | DbQuery q _ :: effs' => q :: queries effs'
  | _ :: effs' => queries effs'
  end.

(** An emission reaches connection [c] when its room is [c]: every socket
    is in the room named by its own id, and the handlers use no other
    room. *)
Definition reaches (c : SocketId) (em : option SocketId * OutEvent) : Prop :=
  fst em = Some c.

(** ** Predicates on events *)

Definition registers (u : UserId) (ev : Event) : bool :=
  match ev with
  | RegisterUser _ userId _ _ => userId =? u
  | _ => false
  end.

Definition disconnects (c : SocketId) (ev : Event) : bool :=
  match ev with
  | Disconnect socket_id => String.eqb socket_id c
  | _ => false
  end.


(** An event of a trace that only concerns user [u]: a registration of
    [u] or the disconnect of some connection. *)
Definition on_user (u : UserId) (ev : Event) : bool :=
  match ev with
  | RegisterUser _ userId _ _ => userId =? u
  | Disconnect _ => true
  | _ => false
  end.

(** A read event that lists message [M]. *)
Definition reads (M : MessageId) (ev : Event) : bool :=
  match ev with
  | MessageRead _ data _ =>
      match rd_messageIds data with
      | Some messageIds => existsb (N.eqb M) messageIds
      | None => false
      end
  | _ => false
  end.

(** ** Predicates on effects and on the table *)

(** The only way a handler shows anything to a client is an emission;
    queries and console output stay on the server. *)
Definition client_visible (eff : Effect) : bool :=
  match eff with
  | Emit _ _ => true
  | _ => false
  end.

Definition is_saved (e : OutEvent) : bool :=
  match e with
  | messageSaved _ _ => true
  | _ => false
  end.

Definition is_delivered_for (M : MessageId) (e : OutEvent) : bool :=
  match e with
  | messageDelivered messageId => messageId =? M
  | _ => false
  end.

(** Neither a query nor an emission. *)
Definition quiet (eff : Effect) : bool :=
  match eff with
  | DbQuery _ _ | Emit _ _ => false
  | _ => true
  end.

(** After the first failed query of an effect list there is no further
    query and no emission. *)
Fixpoint aborts_after_failure (effs : list Effect) : bool :=
  match effs with
  | [] => true
  | DbQuery _ false :: effs' => forallb quiet effs'
  | _ :: effs' => aborts_after_failure effs'
  end.

(** The invariant of the message life cycle: a read message is a
    delivered one. *)
Definition read_implies_delivered (d : Db) : Prop :=
  forall m, In m (rows d) -> is_read m = true -> delivered m = true.

(** A read event lists only messages that are already delivered. *)
Definition reads_only_delivered (st : State) (ev : Event) : Prop :=
  match ev with
  | MessageRead _ data _ =>
      forall messageIds m,
        rd_messageIds data = Some messageIds ->
        In m (rows (db st)) ->
        In (message_id m) messageIds ->
        delivered m = true
  | _ => True
  end.

(** Message ids are the values the counter has handed out: distinct and
    below the counter. *)
Definition store_wf (d : Db) : Prop :=
  NoDup (map message_id (rows d)) /\
  Forall (fun m => message_id m < next_id d) (rows d).

(** A registration of user [r] whose delivered-mark is run and succeeds
    (if the registration is not suppressed as a duplicate). *)
Definition marks (r : UserId) (ev : Event) : bool :=
  match ev with
  | RegisterUser _ userId true _ => userId =? r
  | _ => false
  end.

(** ** Further predicates on events *)

(** A typing indicator, which the server only passes on. *)
Definition is_relay (ev : Event) : bool :=
  match ev with
  | Typing _ _ | StopTyping _ _ => true
  | _ => false
  end.

(** A registration of user [u] on socket [s]. *)
Definition registers_on (s : SocketId) (u : UserId) (ev : Event) : bool :=
  match ev with
  | RegisterUser socket_id userId _ _ =>
      String.eqb socket_id s && (userId =? u)
  | _ => false
  end.

(** What [registerUser] notifies the sender of [message] with, given the
    registry [us]: the body of its [forEach]. *)
Definition delivery_notice (us : Obj.t) (message : Message)
  : list (option SocketId * OutEvent) :=
  if truthy (Obj.get (sender_id message) us)
  then [(Obj.get (sender_id message) us, messageDelivered (message_id message))]
  else [].

(** * The HTTP routes on the tables

    The message routes and the notification routes answer a request with
    [res.status(...).json({success, error, data})].  As for the socket
    handlers, the outcome of each [db.query] travels with the request: a
    query either fails with the text of [err.message] or succeeds with
    its result. *)

Inductive QueryResult (A : Type) :=
| QueryOk (results : A)
| QueryErr (message : string).

Arguments QueryOk {A} results.
Arguments QueryErr {A} message.

Record Response (A : Type) := mkResponse {
  status : N;               (* 200 when the handler sets none *)
  success : bool;
  error : option string;
  data : option A           (* [None]: [data: null] *)
}.

Arguments mkResponse {A} status success error data.
Arguments status {A} r.
Arguments success {A} r.
Arguments error {A} r.
Arguments data {A} r.

(** ** Attached files: the S3 key and the file URL

    The upload route stores a file under a key and answers with the URL
    built from bucket, region and key; the delete route gets the key
    back from the stored URL with [split].  Texts are lists of
    characters here. *)

Module Media.

Definition text := list ascii.

Definition of_string (s : string) : text := list_ascii_of_string s.

(** [s.startsWith(sep)] *)
Fixpoint starts_with (sep s : text) : bool :=
  match sep, s with
  | [], _ => true
  | _ :: _, [] => false
  | a :: sep', b :: s' => Ascii.eqb a b && starts_with sep' s'
  end.

(** The piece of [s] before the first occurrence of [sep] and, if [sep]
    occurs, what follows that occurrence: one step of [s.split(sep)] for
    a separator that is not empty. *)
Fixpoint cut (sep s : text) : text * option text :=
  match s with
  | [] => ([], None)
  | c :: s' =>
      if starts_with sep s then ([], Some (skipn (List.length sep) s))
      else let '(piece, rest) := cut sep s' in (c :: piece, rest)
  end.

(** [s.split(sep)[1]]: [undefined] when [sep] does not occur in [s],
    otherwise the piece between its first occurrence and the next. *)
Definition split_second (sep s : text) : option text :=
  match cut sep s with
  | (_, Some rest) => Some (fst (cut sep rest))
  | (_, None) => None
  end.

Definition separator : text := of_string ".amazonaws.com/".

(** [Key: `chat/${Date.now()}_${fileName}`]; [now] is the text of
    [Date.now()]. *)
Definition upload_key (now fileName : text) : text :=
  of_string "chat/" ++ now ++ of_string "_" ++ fileName.

(** [`https://${Bucket}.s3.${process.env.AWS_REGION}.amazonaws.com/${Key}`] *)
Definition file_url (bucket region key : text) : text :=
  of_string "https://" ++ bucket ++ of_string ".s3." ++ region
            ++ of_string ".amazonaws.com/" ++ key.

(** [fileUrl.split(".amazonaws.com/")[1]] *)
Definition s3_key (fileUrl : text) : option text :=
  split_second separator fileUrl.

Definition slash : ascii := "/"%char.

Definition no_slash (s : text) : Prop := Forall (fun c => c <> slash) s.

End Media.

(** ** The message routes: history by chat partner *)

Module History.

Section Columns.

(** The values of the columns the routes only copy into the answer. *)
Variable Value : Type.

(** A row of [messages], with the columns the history query selects.
    [file_url] is [NULL] or a string. *)
Record Row := mkRow {
  message_id : N;
  sender_id : N;
  receiver_id : N;
  message_text : Value;
  file_url : option string;
  timestamp : Value;
  delivered : Value;
  delivered_timestamp : Value;
  is_read : Value;
  read_timestamp : Value;
  file_name : Value;
  file_size : Value;
  reply_to : Value;
  media_width : Value;
  media_height : Value;
  reactions : Value
}.

(** A message as the history route returns it: the row without its
    receiver, with [is_read] under the name [read]. *)
Record Item := mkItem {
  i_message_id : N;
  i_sender_id : N;
  i_message_text : Value;
  i_file_url : option string;
  i_timestamp : Value;
  i_delivered : Value;
  i_read : Value;
  i_delivered_timestamp : Value;
  i_read_timestamp : Value;
  i_file_name : Value;
  i_file_size : Value;
  i_reply_to : Value;
  i_media_width : Value;
  i_media_height : Value;
  i_reactions : Value
}.

Definition to_item (msg : Row) : Item :=
  mkItem (message_id msg) (sender_id msg) (message_text msg) (file_url msg)
         (timestamp msg) (delivered msg) (is_read msg)
         (delivered_timestamp msg) (read_timestamp msg) (file_name msg)
         (file_size msg) (reply_to msg) (media_width msg) (media_height msg)
         (reactions msg).

(** The object [groupedMessages]: chat partner id to array of messages.
    Its keys are user ids, enumerated like those of [userSockets]: array
    indices ascending, then the other keys in order of creation. *)
Definition Groups := list (N * list Item).

Fixpoint get (k : N) (g : Groups) : option (list Item) :=
  match g with
  | [] => None
  | (k', v) :: g' => if k =? k' then Some v else get k g'
  end.

Fixpoint set (k : N) (v : list Item) (g : Groups) : Groups :=
  match g with
  | [] => [(k, v)]
  | (k', v') :: g' =>
      if k =? k' then (k, v) :: g'
      else if goes_before k k' then (k, v) :: g
      else (k', v') :: set k v g'
  end.

(** [g[k].push(x)] for a key that is present. *)
Fixpoint push (k : N) (x : Item) (g : Groups) : Groups :=
  match g with
  | [] => []
  | (k', v) :: g' =>
      if k =? k' then (k', v ++ [x]) :: g' else (k', v) :: push k x g'
  end.

(** [msg.sender_id === parseInt(currentUserId)]; [parsed] is the result
    of [parseInt], [None] when it is [NaN]. *)
Definition is_current (parsed : option Z) (id : N) : bool :=
  match parsed with
  | Some z => Z.eqb (Z.of_N id) z
  | None => false
  end.

Definition chatPartnerId (parsed : option Z) (msg : Row) : N :=
  if is_current parsed (sender_id msg) then receiver_id msg else sender_id msg.

(** The body of [messagesResults.forEach]. *)
Definition add_message (parsed : option Z) (groupedMessages : Groups)
           (msg : Row) : Groups :=
  let k := chatPartnerId parsed msg in
  let g :=
    match get k groupedMessages with
    | None => set k [] groupedMessages      (* an array is never falsy *)
    | Some _ => groupedMessages
    end in
  push k (to_item msg) g.

Definition group_messages (parsed : option Z) (messagesResults : list Row)
  : Groups :=
  fold_left (add_message parsed) messagesResults [].

(** [GET /:currentUserId]; [Users] is the type of the result of the
    first query, which the route passes on. *)
Definition get_history (Users : Type) (parsed : option Z)
           (usersResults : QueryResult Users)
           (messagesResults : QueryResult (list Row))
  : Response (Users * Groups) :=
  match usersResults with
  | QueryErr message => mkResponse 500 false (Some message) None
  | QueryOk users =>
      match messagesResults with
      | QueryErr message => mkResponse 500 false (Some message) None
      | QueryOk messages =>
          mkResponse 200 true None (Some (users, group_messages parsed messages))
      end
  end.

(** What the delete route does besides answering, in program order. *)
Inductive DeleteEffect :=
| SelectFileUrl (messageId : N) (ok : bool)
| DeleteMessage (messageId : N) (ok : bool)
| S3Delete (key : option Media.text) (ok : bool)   (* the [try] block *)
| S3DeletionError.                                  (* [console.error] *)

(** Truthiness of a column value that is [NULL] or a string. *)
Definition truthy_url (fileUrl : option string) : bool :=
  match fileUrl with
  | Some s => negb (String.eqb s EmptyString)
  | None => false
  end.

(** [DELETE /:messageId].  [messageId] is [None] when the parameter is
    falsy, otherwise the number MySQL reads from it; the two queries fail
    with the given text, if any; [s3_ok] tells whether the statement in
    the [try] block completes. *)
Definition delete_message (messageId : option N)
           (sel_err del_err : option string) (s3_ok : bool)
           (table : list Row)
  : list Row * Response string * list DeleteEffect :=
  match messageId with
  | None =>
      (table, mkResponse 400 false (Some "Message ID is required.") None, [])
  | Some n =>
      match sel_err with
      | Some message =>
          (table, mkResponse 500 false (Some message) None,
           [SelectFileUrl n false])
      | None =>
          match filter (fun r => message_id r =? n) table with
          | [] =>
              (table, mkResponse 404 false (Some "Message not found.") None,
               [SelectFileUrl n true])
          | r :: _ =>
              let fileUrl := file_url r in
              match del_err with
              | Some message =>
                  (table, mkResponse 500 false (Some message) None,
                   [SelectFileUrl n true; DeleteMessage n false])
              | None =>
                  (filter (fun r => negb (message_id r =? n)) table,
                   mkResponse 200 true None
                              (Some "Message deleted successfully."),
                   [SelectFileUrl n true; DeleteMessage n true]
                   ++ (if truthy_url fileUrl then
                         let key :=
                           match fileUrl with
                           | Some s => Media.s3_key (Media.of_string s)
                           | None => None
                           end in
                         S3Delete key s3_ok
                         :: (if s3_ok then [] else [S3DeletionError])
                       else []))
              end
          end
      end
  end.

(** The messages between [cur] and [k]. *)
Definition between (cur k : N) (msg : Row) : bool :=
  ((sender_id msg =? cur) && (receiver_id msg =? k))
  || ((sender_id msg =? k) && (receiver_id msg =? cur)).

(** What the history query's [WHERE sender_id = ? OR receiver_id = ?]
    lets through for user [cur]. *)
Definition involves (cur : N) (msg : Row) : bool :=
  (sender_id msg =? cur) || (receiver_id msg =? cur).

End Columns.

Arguments message_id {Value} r.
Arguments sender_id {Value} r.
Arguments receiver_id {Value} r.
Arguments file_url {Value} r.
Arguments to_item {Value} msg.
Arguments get {Value} k g.
Arguments set {Value} k v g.
Arguments push {Value} k x g.
Arguments chatPartnerId {Value} parsed msg.
Arguments add_message {Value} parsed groupedMessages msg.
Arguments group_messages {Value} parsed messagesResults.
Arguments get_history {Value} Users parsed usersResults messagesResults.
Arguments between {Value} cur k msg.
Arguments involves {Value} cur msg.
Arguments delete_message {Value} messageId sel_err del_err s3_ok table.

End History.

(** ** The notification routes *)

Module Notifications.

Section Columns.

(** The columns of [notifications] the two routes do not test or set,
    and the rows the joined listing query returns. *)
Variable Payload : Type.
Variable Listing : Type.

Record Notification := mkNotification {
  user_id : N;
  is_read : bool;
  payload : Payload
}.

(** [UPDATE notifications SET is_read = TRUE WHERE user_id = ?] *)
Definition mark_all_read (userId : N) (table : list Notification)
  : list Notification :=
  map (fun n => if user_id n =? userId
                then mkNotification (user_id n) true (payload n) else n)
      table.

(** [SELECT COUNT( * ) AS unread_count FROM notifications
     WHERE user_id = ? AND is_read = FALSE] *)
Definition unread_count (userId : N) (table : list Notification) : N :=
  N.of_nat (List.length
              (filter (fun n => (user_id n =? userId) && negb (is_read n)) table)).

(** [GET /:userId]: the listing query, then the update; [userId] is the
    number MySQL reads from the parameter. *)
Definition get_notifications (userId : N) (listing : QueryResult Listing)
           (upd_err : option string) (table : list Notification)
  : list Notification * Response Listing :=
  match listing with
  | QueryErr message => (table, mkResponse 500 false (Some message) None)
  | QueryOk results =>
      match upd_err with
      | Some message => (table, mkResponse 500 false (Some message) None)
      | None => (mark_all_read userId table,
                 mkResponse 200 true None (Some results))
      end
  end.

(** [GET /count/:userId] *)
Definition get_unread_count (userId : N) (cnt_err : option string)
           (table : list Notification) : Response N :=
  match cnt_err with
  | Some message => mkResponse 500 false (Some message) None
  | None => mkResponse 200 true None (Some (unread_count userId table))
  end.

End Columns.

Arguments user_id {Payload} n.
Arguments is_read {Payload} n.
Arguments payload {Payload} n.
Arguments mark_all_read {Payload} userId table.
Arguments unread_count {Payload} userId table.
Arguments get_notifications {Payload Listing} userId listing upd_err table.
Arguments get_unread_count {Payload} userId cnt_err table.

End Notifications.
(** ** Facts about JavaScript values and the [userSockets] object *)

Lemma strict_eq_true (v : option SocketId) (s : SocketId) :
  strict_eq v s = true <-> v = Some s.
Proof.
  destruct v as [s'|]; simpl.
  - rewrite String.eqb_eq. split; congruence.
  - split; discriminate.
Qed.

Lemma strict_eq_false (v : option SocketId) (s : SocketId) :
  strict_eq v s = false <-> v <> Some s.
Proof.
  rewrite <- strict_eq_true. destruct (strict_eq v s); split; congruence.
Qed.

Module ObjFacts.
Import Obj.

Lemma get_set_eq k v o : get k (set k v o) = Some v.
Proof.
  induction o as [|[k' v'] o IH]; simpl.
  - now rewrite N.eqb_refl.
  - destruct (k =? k') eqn:E; simpl.
    + now rewrite N.eqb_refl.
    + destruct (goes_before k k'); simpl.
      * now rewrite N.eqb_refl.
      * now rewrite E.
Qed.

Lemma get_set_ne k k' v o : k <> k' -> get k' (set k v o) = get k' o.
Proof.
  intros Hne. apply N.eqb_neq in Hne. rewrite N.eqb_sym in Hne.
  induction o as [|[k0 v0] o IH]; simpl.
  - now rewrite Hne.
  - destruct (k =? k0) eqn:E; simpl.
    + apply N.eqb_eq in E. subst k0. now rewrite Hne.
    + destruct (goes_before k k0); simpl.
      * now rewrite Hne.
      * now rewrite IH.
Qed.

Lemma get_delete k k' o :
  get k' (delete k o) = if k' =? k then None else get k' o.
Proof.
  unfold delete. induction o as [|[k0 v0] o IH]; simpl.
  - now destruct (k' =? k).
  - destruct (k0 =? k) eqn:E0; simpl.
    + rewrite IH. apply N.eqb_eq in E0. subst k0.
      now destruct (k' =? k).
    + rewrite IH. destruct (k' =? k0) eqn:E1; [|reflexivity].
      apply N.eqb_eq in E1. subst k0. now rewrite E0.
Qed.

Lemma get_delete_ne k k' o : k' <> k -> get k' (delete k o) = get k' o.
Proof.
  intros Hne. rewrite get_delete. apply N.eqb_neq in Hne. now rewrite Hne.
Qed.

Lemma get_delete_eq k o : get k (delete k o) = None.
Proof. rewrite get_delete. now rewrite N.eqb_refl. Qed.

Lemma get_Some_key k v o : get k o = Some v -> In k (keys o).
Proof.
  unfold keys. induction o as [|[k0 v0] o IH]; simpl; [discriminate|].
  destruct (k =? k0) eqn:E.
  - apply N.eqb_eq in E. auto.
  - auto.
Qed.

Lemma keys_set_In k v o x : In x (keys (set k v o)) -> x = k \/ In x (keys o).
Proof.
  unfold keys. induction o as [|[k0 v0] o IH]; simpl.
  - intros [<-|[]]. now left.
  - destruct (k =? k0) eqn:E; simpl.
    + apply N.eqb_eq in E. subst k0. intros [<-|H]; auto.
    + destruct (goes_before k k0); simpl.
      * intros [<-|[<-|H]]; auto.
      * intros [<-|H]; auto. destruct (IH H); auto.
Qed.

Lemma goes_before_precedes k k' : goes_before k k' = true -> precedes k k'.
Proof.
  unfold goes_before, precedes. intros H.
  apply andb_true_iff in H. destruct H as [Hk H]. rewrite Hk.
  apply orb_true_iff in H. destruct H as [H|H].
  - left. now apply negb_true_iff.
  - right. now apply N.ltb_lt.
Qed.

Lemma not_goes_before_precedes k k' :
  k <> k' -> goes_before k k' = false -> precedes k' k.
Proof.
  unfold goes_before, precedes. intros Hne H.
  destruct (is_index k) eqn:Hk, (is_index k') eqn:Hk'; simpl in *; auto;
    try discriminate.
  right. apply N.ltb_ge in H. lia.
Qed.

Lemma precedes_trans k k' x :
  goes_before k k' = true -> precedes k' x -> precedes k x.
Proof.
  unfold goes_before, precedes. intros H.
  apply andb_true_iff in H. destruct H as [Hk H]. rewrite Hk.
  destruct (is_index k') eqn:Hk'; simpl in *; [|now left].
  apply N.ltb_lt in H. intros [Hx|Hx]; [now left|right; lia].
Qed.

(** Assignments and deletions keep the keys in the order in which
    [for ... in] visits them: array indices ascending, then the rest. *)
Lemma set_ordered k v o :
  StronglySorted precedes (keys o) -> StronglySorted precedes (keys (set k v o)).
Proof.
  unfold keys. induction o as [|[k0 v0] o IH]; simpl; intros Hs.
  - repeat constructor.
  - inversion Hs as [|? ? Hs' Hall]; subst.
    destruct (k =? k0) eqn:E; simpl.
    + apply N.eqb_eq in E. subst k0. now constructor.
    + apply N.eqb_neq in E. destruct (goes_before k k0) eqn:G; simpl.
      * constructor; [exact Hs|].
        constructor; [now apply goes_before_precedes|].
        eapply Forall_impl; [|exact Hall]. simpl. intros a Ha.
        now apply (precedes_trans k k0).
      * constructor; [now apply IH|].
        apply Forall_forall. intros x Hx.
        apply keys_set_In in Hx. destruct Hx as [->|Hx].
        -- now apply not_goes_before_precedes.
        -- rewrite Forall_forall in Hall. now apply Hall.
Qed.

Lemma delete_ordered k o :
  StronglySorted precedes (keys o) -> StronglySorted precedes (keys (delete k o)).
Proof.
  unfold keys, delete. induction o as [|[k0 v0] o IH]; simpl; intros Hs.
  - constructor.
  - inversion Hs as [|? ? Hs' Hall]; subst.
    destruct (k0 =? k); simpl; [now apply IH|].
    constructor; [now apply IH|].
    apply Forall_forall. intros x Hx. rewrite Forall_forall in Hall.
    apply Hall. apply in_map_iff in Hx. destruct Hx as (e & <- & He).
    apply filter_In in He. apply in_map. tauto.
Qed.

End ObjFacts.

(** The loop of the disconnect handler stops at the first key, in
    enumeration order, whose value is the socket id. *)
Lemma bound_user_first socket_id o before u after :
  Obj.keys o = before ++ u :: after ->
  Obj.get u o = Some socket_id ->
  (forall k, In k before -> Obj.get k o <> Some socket_id) ->
  bound_user socket_id o = Some u.
Proof.
  unfold bound_user. intros -> Hu Hbefore.
  induction before as [|k before IH]; simpl.
  - apply strict_eq_true in Hu. now rewrite Hu.
  - assert (Hk : strict_eq (Obj.get k o) socket_id = false)
      by (apply strict_eq_false, Hbefore; now left).
    rewrite Hk. apply IH. intros k' Hin. apply Hbefore. now right.
Qed.

Lemma bound_user_Some socket_id o u :
  bound_user socket_id o = Some u ->
  Obj.get u o = Some socket_id /\
  exists before after,
    Obj.keys o = before ++ u :: after /\
    forall k, In k before -> Obj.get k o <> Some socket_id.
Proof.
  unfold bound_user. generalize (Obj.keys o) as ks.
  induction ks as [|k ks IH]; simpl; [discriminate|].
  destruct (strict_eq (Obj.get k o) socket_id) eqn:E.
  - intros [= ->]. split; [now apply strict_eq_true|].
    exists [], ks. split; [reflexivity|]. intros k' [].
  - intros H. destruct (IH H) as [Hu (before & after & -> & Hb)].
    split; [exact Hu|]. exists (k :: before), after. split; [reflexivity|].
    intros k' [<-|Hin]; [now apply strict_eq_false|now apply Hb].
Qed.

Lemma bound_user_None socket_id o :
  bound_user socket_id o = None <->
  forall k, Obj.get k o <> Some socket_id.
Proof.
  split.
  - intros Hnone k Hk.
    pose proof (find_none _ _ Hnone k (ObjFacts.get_Some_key _ _ _ Hk)) as Hf.
    simpl in Hf. apply strict_eq_false in Hf. contradiction.
  - intros Hall. destruct (bound_user socket_id o) as [u|] eqn:E; [|reflexivity].
    apply bound_user_Some in E. destruct E as [Hu _]. now apply Hall in Hu.
Qed.

(** ** How each handler changes the registry *)

Lemma run_app st evs1 evs2 : run st (evs1 ++ evs2) = run (run st evs1) evs2.
Proof. revert st. induction evs1 as [|ev evs1 IH]; intros st; simpl; auto. Qed.

Lemma sendMessage_userSockets data a b st :
  userSockets (fst (sendMessage data a b st)) = userSockets st.
Proof.
  unfold sendMessage. destruct a; simpl; [|reflexivity].
  destruct (truthy _); [destruct b|]; reflexivity.
Qed.

Lemma messageRead_userSockets data a st :
  userSockets (fst (messageRead data a st)) = userSockets st.
Proof.
  unfold messageRead. destruct (rd_messageIds data) as [[|i ids]|];
    try reflexivity. destruct a; reflexivity.
Qed.

Lemma relay_state mk data st : fst (relay mk data st) = st.
Proof. unfold relay. destruct (truthy _); reflexivity. Qed.

Lemma registerUser_userSockets socket_id userId a b st :
  userSockets (fst (registerUser socket_id userId a b st)) =
  if strict_eq (Obj.get userId (userSockets st)) socket_id
  then userSockets st
  else Obj.set userId socket_id (userSockets st).
Proof.
  unfold registerUser. destruct (strict_eq _ _); simpl; [reflexivity|].
  destruct a; simpl; [destruct b|]; reflexivity.
Qed.

Lemma registerUser_binds socket_id userId a b st :
  Obj.get userId (userSockets (fst (registerUser socket_id userId a b st)))
  = Some socket_id.
Proof.
  rewrite registerUser_userSockets.
  destruct (strict_eq _ _) eqn:E.
  - now apply strict_eq_true.
  - apply ObjFacts.get_set_eq.
Qed.

Lemma disconnect_userSockets socket_id st :
  userSockets (fst (disconnect socket_id st)) =
  match bound_user socket_id (userSockets st) with
  | Some userId => Obj.delete userId (userSockets st)
  | None => userSockets st
  end.
Proof. unfold disconnect. destruct (bound_user _ _); reflexivity. Qed.

(** In every reachable state the registry enumerates its users in the
    order of [for ... in]. *)
Lemma handle_ordered st ev :
  StronglySorted precedes (Obj.keys (userSockets st)) ->
  StronglySorted precedes (Obj.keys (userSockets (fst (handle st ev)))).
Proof.
  intros Hs. destruct ev as [s k a b|s d a b|s d a|s d|s d|s]; simpl.
  - rewrite registerUser_userSockets. destruct (strict_eq _ _); [exact Hs|].
    now apply ObjFacts.set_ordered.
  - now rewrite sendMessage_userSockets.
  - now rewrite messageRead_userSockets.
  - now rewrite relay_state.
  - now rewrite relay_state.
  - rewrite disconnect_userSockets. destruct (bound_user _ _); [|exact Hs].
    now apply ObjFacts.delete_ordered.
Qed.

Lemma reachable_ordered st :
  reachable st -> StronglySorted precedes (Obj.keys (userSockets st)).
Proof.
  intros [evs ->].
  assert (H : forall evs st, StronglySorted precedes (Obj.keys (userSockets st)) ->
                             StronglySorted precedes (Obj.keys (userSockets (run st evs)))).
  { clear. induction evs as [|ev evs IH]; intros st Hs; simpl; [exact Hs|].
    apply IH. now apply handle_ordered. }
  apply H. constructor.
Qed.

(** An event that does not register [u] leaves [u]'s binding alone or
    removes it. *)
Lemma handle_keeps_or_unbinds u st ev :
  registers u ev = false ->
  let us' := userSockets (fst (handle st ev)) in
  Obj.get u us' = Obj.get u (userSockets st) \/
  (Obj.get u us' = None /\
   exists c, ev = Disconnect c /\ Obj.get u (userSockets st) = Some c).
Proof.
  destruct ev as [s k a b|s d a b|s d a|s d|s d|s]; simpl; intros Hreg.
  - left. rewrite registerUser_userSockets.
    destruct (strict_eq _ _); [reflexivity|].
    apply ObjFacts.get_set_ne. now apply N.eqb_neq.
  - left. now rewrite sendMessage_userSockets.
  - left. now rewrite messageRead_userSockets.
  - left. now rewrite relay_state.
  - left. now rewrite relay_state.
  - rewrite disconnect_userSockets.
    destruct (bound_user s (userSockets st)) as [k|] eqn:E; [|now left].
    rewrite ObjFacts.get_delete. destruct (u =? k) eqn:Euk; [|now left].
    right. split; [reflexivity|]. exists s. split; [reflexivity|].
    apply N.eqb_eq in Euk. subst k. now apply bound_user_Some in E.
Qed.

Lemma disconnect_unbound socket_id st :
  (forall k, Obj.get k (userSockets st) <> Some socket_id) ->
  disconnect socket_id st = (st, []).
Proof.
  intros H. apply bound_user_None in H. unfold disconnect. now rewrite H.
Qed.

(** Without a registration of [u], a binding of [u] found at the end was
    already there at the start. *)
Lemma run_binding_not_created u evs : forall st c,
  existsb (registers u) evs = false ->
  Obj.get u (userSockets (run st evs)) = Some c ->
  Obj.get u (userSockets st) = Some c.
Proof.
  induction evs as [|ev evs IH]; intros st c Hreg Hget; simpl in *; [exact Hget|].
  apply orb_false_iff in Hreg. destruct Hreg as [Hev Hevs].
  specialize (IH _ _ Hevs Hget).
  destruct (handle_keeps_or_unbinds u st ev Hev) as [Heq|[Hnone _]];
    simpl in *; congruence.
Qed.

(** Without a registration of [u] and without a disconnect of [B], a
    binding of [u] to [B] stays. *)
Lemma run_binding_kept u B evs : forall st,
  existsb (registers u) evs = false ->
  existsb (disconnects B) evs = false ->
  Obj.get u (userSockets st) = Some B ->
  Obj.get u (userSockets (run st evs)) = Some B.
Proof.
  induction evs as [|ev evs IH]; intros st Hreg Hdis Hget; simpl in *; [exact Hget|].
  apply orb_false_iff in Hreg. destruct Hreg as [Hev Hevs].
  apply orb_false_iff in Hdis. destruct Hdis as [Hd Hds].
  apply IH; auto.
  destruct (handle_keeps_or_unbinds u st ev Hev) as [Heq|[_ (c & -> & Hc)]];
    simpl in *; [congruence|].
  rewrite Hget in Hc. injection Hc as <-. now rewrite String.eqb_refl in Hd.
Qed.

(** Traces that only concern [u], from the empty registry: the registry
    never holds more than [u]'s entry. *)
Lemma single_user_step u ev st :
  on_user u ev = true ->
  (userSockets st = [] \/ exists c, userSockets st = [(u, c)]) ->
  let us' := userSockets (fst (handle st ev)) in
  us' = [] \/ exists c, us' = [(u, c)].
Proof.
  destruct ev as [s k a b|s d a b|s d a|s d|s d|s]; simpl; try discriminate.
  - intros Hk. apply N.eqb_eq in Hk. subst k. rewrite registerUser_userSockets.
    intros [H|[c H]]; rewrite H; simpl.
    + right. now exists s.
    + rewrite N.eqb_refl. simpl. right.
      destruct (String.eqb c s); eauto.
  - intros _. rewrite disconnect_userSockets.
    intros [H|[c H]]; rewrite H; simpl; [now left|].
    unfold bound_user. simpl. rewrite N.eqb_refl. simpl.
    destruct (String.eqb c s); simpl.
    + rewrite N.eqb_refl. now left.
    + right. now exists c.
Qed.

Lemma single_user_run u evs : forall st,
  forallb (on_user u) evs = true ->
  (userSockets st = [] \/ exists c, userSockets st = [(u, c)]) ->
  let us' := userSockets (run st evs) in
  us' = [] \/ exists c, us' = [(u, c)].
Proof.
  induction evs as [|ev evs IH]; intros st Hall Hst; simpl in *; [exact Hst|].
  apply andb_true_iff in Hall. destruct Hall as [Hev Hevs].
  apply IH; [exact Hevs|]. now apply single_user_step.
Qed.

Lemma empty_registry_stays u evs : forall st,
  forallb (on_user u) evs = true ->
  existsb (registers u) evs = false ->
  userSockets st = [] ->
  userSockets (run st evs) = [].
Proof.
  induction evs as [|ev evs IH]; intros st Hall Hreg Hst; simpl in *; [exact Hst|].
  apply andb_true_iff in Hall. destruct Hall as [Hev Hevs].
  apply orb_false_iff in Hreg. destruct Hreg as [Hr Hrs].
  apply IH; auto.
  destruct ev as [s k a b|s d a b|s d a|s d|s d|s]; simpl in *;
    try discriminate; [congruence|].
  rewrite disconnect_userSockets, Hst. reflexivity.
Qed.

Lemma single_user_disconnects u B evs : forall st,
  forallb (on_user u) evs = true ->
  existsb (registers u) evs = false ->
  userSockets st = [(u, B)] ->
  userSockets (run st evs) =
  if existsb (disconnects B) evs then [] else [(u, B)].
Proof.
  induction evs as [|ev evs IH]; intros st Hall Hreg Hst; simpl in *; [exact Hst|].
  apply andb_true_iff in Hall. destruct Hall as [Hev Hevs].
  apply orb_false_iff in Hreg. destruct Hreg as [Hr Hrs].
  destruct ev as [s k a b|s d a b|s d a|s d|s d|s]; simpl in *;
    try discriminate; [congruence|].
  assert (Hstep : userSockets (fst (disconnect s st)) =
                  if String.eqb s B then [] else [(u, B)]).
  { rewrite disconnect_userSockets, Hst. unfold bound_user. simpl.
    rewrite N.eqb_refl. simpl. rewrite String.eqb_sym.
    destruct (String.eqb s B); simpl; [|reflexivity].
    now rewrite N.eqb_refl. }
  destruct (String.eqb s B); simpl.
  - now apply (empty_registry_stays u).
  - now apply IH.
Qed.

Lemma register_single_user u B a b st :
  (userSockets st = [] \/ exists c, userSockets st = [(u, c)]) ->
  userSockets (fst (registerUser B u a b st)) = [(u, B)].
Proof.
  rewrite registerUser_userSockets. intros [H|[c H]]; rewrite H; simpl.
  - reflexivity.
  - rewrite N.eqb_refl. simpl. destruct (String.eqb c B) eqn:E; simpl.
    + apply String.eqb_eq in E. now subst c.
    + reflexivity.
Qed.

(** ** The presence registry *)

(** C2.  The registry follows the latest registration of a user.  After
    a registration of [u] on [B] and any further events that do not
    register [u] again, [u] is bound to [B] or to nothing, never to an
    older connection, and it is bound to [B] as long as [B] has not
    disconnected; in a trace that only concerns [u], started from the
    empty registry, [u] is bound to [B] exactly until [B] disconnects.
    In particular [register(u,A); register(u,B); disconnect(A)] leaves
    [u] bound to [B] when [A] and [B] are different connections, and the
    disconnect of a connection no user is bound to changes nothing. *)
Theorem registry_tracks_latest_registration :
  forall (u : UserId) (A B : SocketId),
    (forall st evs1 evs2 a b,
        existsb (registers u) evs2 = false ->
        let final :=
          userSockets (run st (evs1 ++ RegisterUser B u a b :: evs2)) in
        (forall c, Obj.get u final = Some c -> c = B) /\
        (existsb (disconnects B) evs2 = false -> Obj.get u final = Some B)) /\
    (forall evs1 evs2 a b,
        forallb (on_user u) (evs1 ++ evs2) = true ->
        existsb (registers u) evs2 = false ->
        Obj.get u (userSockets
                     (run initial_state (evs1 ++ RegisterUser B u a b :: evs2)))
        = if existsb (disconnects B) evs2 then None else Some B) /\
    (A <> B ->
     forall st a b c d,
       Obj.get u (userSockets
                    (run st [RegisterUser A u a b; RegisterUser B u c d;
                             Disconnect A]))
       = Some B) /\
    (forall st,
        (forall k, Obj.get k (userSockets st) <> Some A) ->
        handle st (Disconnect A) = (st, [])).
Proof.
  intros u A B.
  assert (General : forall st evs1 evs2 a b,
             existsb (registers u) evs2 = false ->
             let final :=
               userSockets (run st (evs1 ++ RegisterUser B u a b :: evs2)) in
             (forall c, Obj.get u final = Some c -> c = B) /\
             (existsb (disconnects B) evs2 = false -> Obj.get u final = Some B)).
  { intros st evs1 evs2 a b Hreg final. subst final.
    rewrite run_app. simpl.
    pose proof (registerUser_binds B u a b (run st evs1)) as Hbound.
    split.
    - intros c Hc. apply run_binding_not_created in Hc; [|exact Hreg].
      congruence.
    - intros Hdis. now apply run_binding_kept. }
  split; [exact General|]. split; [|split].
  - intros evs1 evs2 a b Hall Hreg.
    rewrite forallb_app in Hall. apply andb_true_iff in Hall.
    destruct Hall as [H1 H2].
    rewrite run_app. simpl.
    assert (Hs : userSockets (fst (registerUser B u a b (run initial_state evs1)))
                 = [(u, B)]).
    { apply register_single_user. apply single_user_run; [exact H1|now left]. }
    rewrite (single_user_disconnects u B evs2 _ H2 Hreg Hs).
    destruct (existsb (disconnects B) evs2); simpl; [reflexivity|].
    now rewrite N.eqb_refl.
  - intros Hne st a b c d.
    apply (General st [RegisterUser A u a b] [Disconnect A] c d); simpl;
      [reflexivity|].
    apply String.eqb_neq in Hne. now rewrite Hne.
  - intros st H. simpl. now apply disconnect_unbound.
Qed.

Lemma registry_tracks_latest_registration_witness :
  "A"%string <> "B"%string /\
  Obj.get 1 (userSockets
               (run initial_state
                    [RegisterUser "A" 1 true true; RegisterUser "B" 1 true true;
                     Disconnect "A"]))
  = Some "B"%string.
Proof.
  split; [discriminate|].
  apply (proj1 (proj2 (proj2
           (registry_tracks_latest_registration 1 "A"%string "B"%string))));
    discriminate.
Defined.

(** C10.  A disconnect removes at most one entry of the registry: the
    first user, in the enumeration order of the object, that is bound to
    the disconnecting socket id.  Every other user keeps its binding,
    also the users further on that are bound to the same socket id; when
    no user is bound to it nothing changes.  The table is not touched and
    nothing is emitted. *)
Theorem disconnect_removes_first_bound_entry :
  forall (socket_id : SocketId) (st : State),
    let st' := fst (handle st (Disconnect socket_id)) in
    ((forall k, Obj.get k (userSockets st) <> Some socket_id) -> st' = st) /\
    (forall before u after,
        Obj.keys (userSockets st) = before ++ u :: after ->
        Obj.get u (userSockets st) = Some socket_id ->
        (forall k, In k before -> Obj.get k (userSockets st) <> Some socket_id) ->
        userSockets st' = Obj.delete u (userSockets st) /\
        Obj.get u (userSockets st') = None /\
        (forall k, k <> u ->
                   Obj.get k (userSockets st') = Obj.get k (userSockets st))) /\
    ((forall k, Obj.get k (userSockets st) <> Some socket_id) \/
     (exists before u after,
         Obj.keys (userSockets st) = before ++ u :: after /\
         Obj.get u (userSockets st) = Some socket_id /\
         forall k, In k before -> Obj.get k (userSockets st) <> Some socket_id)) /\
    db st' = db st /\
    snd (handle st (Disconnect socket_id)) = [].
Proof.
  intros socket_id st st'. subst st'. simpl. repeat split.
  - intros H. now rewrite disconnect_unbound.
  - unfold disconnect. now rewrite (bound_user_first _ _ _ _ _ H H0 H1).
  - unfold disconnect. rewrite (bound_user_first _ _ _ _ _ H H0 H1). simpl.
    apply ObjFacts.get_delete_eq.
  - intros k Hk. unfold disconnect.
    rewrite (bound_user_first _ _ _ _ _ H H0 H1). simpl.
    now apply ObjFacts.get_delete_ne.
  - destruct (bound_user socket_id (userSockets st)) as [u|] eqn:E.
    + right. apply bound_user_Some in E.
      destruct E as [Hu (before & after & Hk & Hb)].
      exists before, u, after. auto.
    + left. now apply bound_user_None.
  - unfold disconnect. destruct (bound_user _ _); reflexivity.
  - unfold disconnect. destruct (bound_user _ _); reflexivity.
Qed.

Lemma disconnect_removes_first_bound_entry_witness :
  let st := mkState [(1, "A"%string); (2, "A"%string); (3, "B"%string)]
                    (mkDb [] 1) in
  let st' := fst (handle st (Disconnect "A")) in
  Obj.keys (userSockets st) = [] ++ 1 :: [2; 3] /\
  Obj.get 1 (userSockets st) = Some "A"%string /\
  Obj.get 1 (userSockets st') = None /\
  Obj.get 2 (userSockets st') = Some "A"%string /\
  Obj.get 3 (userSockets st') = Some "B"%string.
Proof.
  intros st st'.
  destruct (proj1 (proj2 (disconnect_removes_first_bound_entry "A"%string st))
                  [] 1 [2; 3] eq_refl eq_refl (fun k (H : In k []) => match H with end))
    as (_ & Hgone & Hrest).
  split; [reflexivity|]. split; [reflexivity|]. split; [exact Hgone|].
  split.
  - subst st'. rewrite (Hrest 2); [reflexivity|discriminate].
  - subst st'. rewrite (Hrest 3); [reflexivity|discriminate].
Defined.

(** C4.  Registering a user on the connection it is already bound to does
    nothing: no query is issued, nothing is emitted, and the state is
    unchanged.  A registration leaves the user bound to that connection,
    so a second registration of the same pair right after it is such a
    duplicate, whatever the outcome of the first one's queries. *)
Theorem duplicate_registration_is_noop :
  forall (st : State) (socket_id : SocketId) (userId : UserId)
         (a b c d : bool),
    (Obj.get userId (userSockets st) = Some socket_id ->
     handle st (RegisterUser socket_id userId a b) = (st, [])) /\
    (let st1 := fst (handle st (RegisterUser socket_id userId a b)) in
     Obj.get userId (userSockets st1) = Some socket_id /\
     handle st1 (RegisterUser socket_id userId c d) = (st1, [])).
Proof.
  assert (Dup : forall st socket_id userId a b,
             Obj.get userId (userSockets st) = Some socket_id ->
             handle st (RegisterUser socket_id userId a b) = (st, [])).
  { intros st socket_id userId a b H. simpl. unfold registerUser.
    apply strict_eq_true in H. now rewrite H. }
  intros st socket_id userId a b c d. split; [apply Dup|].
  simpl. split; [apply registerUser_binds|].
  apply (Dup _ socket_id userId c d). apply registerUser_binds.
Qed.

Lemma duplicate_registration_is_noop_witness :
  let st := mkState [(1, "A"%string)] (mkDb [] 1) in
  Obj.get 1 (userSockets st) = Some "A"%string /\
  handle st (RegisterUser "A" 1 true true) = (st, []).
Proof.
  intros st. split; [reflexivity|].
  apply (proj1 (duplicate_registration_is_noop st "A"%string 1 true true true true)).
  reflexivity.
Defined.

(** ** The send handler *)

(** C5.  With the receiver online and both queries successful a send
    emits, in this order, [messageSaved] to the sender's binding,
    [unreadMessagesCount] and [receiveMessage] to the receiver's, and
    [messageDelivered] to the sender's; whatever the queries' outcomes,
    what a send emits is an initial part of that sequence, so nothing is
    emitted before [messageSaved]. *)
Theorem send_emission_order :
  forall (st : State) (socket_id : SocketId) (data : SendData),
    let S := Obj.get (sd_senderId data) (userSockets st) in
    let R := Obj.get (sd_receiverId data) (userSockets st) in
    let M := next_id (db st) in
    let db' := fst (insert_message (sd_senderId data) (sd_receiverId data)
                                   (sd_text data) (truthy R) (db st)) in
    let full :=
      [(S, messageSaved (sd_tempId data) M);
       (R, unreadMessagesCount (count_unread (sd_receiverId data) db'));
       (R, receiveMessage M (sd_senderId data) (sd_text data));
       (S, messageDelivered M)] in
    (truthy R = true ->
     emissions (snd (handle st (SendMessage socket_id data true true))) = full) /\
    (forall ins_ok cnt_ok,
        exists n,
          emissions (snd (handle st (SendMessage socket_id data ins_ok cnt_ok)))
          = firstn n full).
Proof.
  intros st socket_id data S R M db' full. subst S R M db' full.
  simpl. unfold sendMessage. split.
  - intros HR. rewrite HR. reflexivity.
  - intros [|] cnt_ok; simpl.
    + destruct (truthy (Obj.get (sd_receiverId data) (userSockets st))).
      * destruct cnt_ok; simpl; [now exists 4%nat|now exists 1%nat].
      * now exists 1%nat.
    + now exists 0%nat.
Qed.

Lemma send_emission_order_witness :
  let st := mkState [(1, "A"); (2, "B")] (mkDb [] 1) in
  truthy (Obj.get 2 (userSockets st)) = true /\
  emissions (snd (handle st (SendMessage "A" (mkSendData 1 2 "hi" 7) true true)))
  = [(Some "A", messageSaved 7 1);
     (Some "B", unreadMessagesCount 1);
     (Some "B", receiveMessage 1 1 "hi");
     (Some "A", messageDelivered 1)].
Proof.
  intros st. split; [reflexivity|].
  apply (proj1 (send_emission_order st "A" (mkSendData 1 2 "hi" 7))).
  reflexivity.
Defined.

(** C7, as stated, fails: a sender that has not registered gets its
    [messageSaved] sent to no room at all, and a sender registered on
    another connection gets it there, not on the connection the send
    arrived on. *)
Lemma messageSaved_misses_own_connection :
  emissions (snd (handle initial_state
                         (SendMessage "C" (mkSendData 1 2 "hi" 7) true true)))
  = [(None, messageSaved 7 1)] /\
  emissions (snd (handle (mkState [(1, "D")] (mkDb [] 1))
                         (SendMessage "C" (mkSendData 1 2 "hi" 7) true true)))
  = [(Some "D", messageSaved 7 1)] /\
  ~ (forall st C data cnt_ok,
        exists em,
          In em (emissions (snd (handle st (SendMessage C data true cnt_ok)))) /\
          snd em = messageSaved (sd_tempId data) (next_id (db st)) /\
          reaches C em).
Proof.
  split; [reflexivity|]. split; [reflexivity|].
  intros H.
  destruct (H initial_state "C" (mkSendData 1 2 "hi" 7) true)
    as (em & Hin & _ & Hreach).
  simpl in Hin. destruct Hin as [<-|[]]. discriminate Hreach.
Qed.

(** C7, amended.  A send whose insert succeeds emits exactly one
    [messageSaved], first of all its emissions, carrying the [tempId] of
    the event and the generated message id, to the socket id the registry
    holds for the sender when the event arrives; it reaches the
    connection the send arrived on exactly when the sender is registered
    on that connection. *)
Theorem messageSaved_goes_to_registered_binding :
  forall (st : State) (C : SocketId) (data : SendData) (cnt_ok : bool),
    let S := Obj.get (sd_senderId data) (userSockets st) in
    let ack := (S, messageSaved (sd_tempId data) (next_id (db st))) in
    let ems := emissions (snd (handle st (SendMessage C data true cnt_ok))) in
    hd_error ems = Some ack /\
    filter (fun em => is_saved (snd em)) ems = [ack] /\
    ((exists em, In em ems /\ is_saved (snd em) = true /\ reaches C em)
     <-> S = Some C).
Proof.
  intros st C data cnt_ok S ack ems.
  assert (Hems : ems = [ack] \/
                 exists x y z, ems = [ack; x; y; z] /\
                               is_saved (snd x) = false /\
                               is_saved (snd y) = false /\
                               is_saved (snd z) = false).
  { subst ems ack S. simpl. unfold sendMessage. simpl.
    destruct (truthy (Obj.get (sd_receiverId data) (userSockets st)));
      [destruct cnt_ok|]; simpl; auto.
    right. do 3 eexists. split; [reflexivity|]. auto. }
  assert (Hfilter : filter (fun em => is_saved (snd em)) ems = [ack]).
  { destruct Hems as [->|(x & y & z & -> & Hx & Hy & Hz)]; simpl.
    - reflexivity.
    - now rewrite Hx, Hy, Hz. }
  split; [|split].
  - destruct Hems as [->|(x & y & z & -> & _)]; reflexivity.
  - exact Hfilter.
  - split.
    + intros (em & Hin & Hs & Hreach).
      assert (Hin' : In em (filter (fun em => is_saved (snd em)) ems))
        by (apply filter_In; auto).
      rewrite Hfilter in Hin'. destruct Hin' as [<-|[]]. exact Hreach.
    + intros HS. exists ack. split; [|split].
      * assert (Hin : In ack (filter (fun em => is_saved (snd em)) ems))
          by (rewrite Hfilter; now left).
        now apply filter_In in Hin.
      * reflexivity.
      * exact HS.
Qed.

(** ** The read handler *)

(** C8, as stated, fails: a read event with an empty list of ids is
    answered with a line on the server's console and with nothing a
    client could see. *)
Lemma empty_read_error_not_client_visible :
  snd (handle initial_state (MessageRead "C" (mkReadData (Some []) 1 2) true))
  = [ConsoleError "No message IDs provided."] /\
  ~ (exists eff,
        In eff (snd (handle initial_state
                            (MessageRead "C" (mkReadData (Some []) 1 2) true))) /\
        client_visible eff = true).
Proof.
  split; [reflexivity|].
  intros (eff & Hin & Hvis). simpl in Hin. destruct Hin as [<-|[]].
  discriminate Hvis.
Qed.

(** C8, amended.  A read event whose list of ids is empty or missing is
    rejected before any access to the table: the handler only writes an
    error to the server's console; it issues no query, emits nothing to
    any connection, so nothing is reported to the client, and leaves the
    state as it was. *)
Theorem empty_read_rejected_on_server_only :
  forall (st : State) (socket_id : SocketId) (data : ReadData) (upd_ok : bool),
    rd_messageIds data = None \/ rd_messageIds data = Some [] ->
    let effs := snd (handle st (MessageRead socket_id data upd_ok)) in
    fst (handle st (MessageRead socket_id data upd_ok)) = st /\
    effs = [ConsoleError "No message IDs provided."] /\
    queries effs = [] /\
    emissions effs = [] /\
    forallb (fun eff => negb (client_visible eff)) effs = true.
Proof.
  intros st socket_id data upd_ok H effs. subst effs. simpl.
  unfold messageRead. destruct H as [-> | ->]; repeat split.
Qed.

Lemma empty_read_rejected_on_server_only_witness :
  let data := mkReadData None 1 2 in
  (rd_messageIds data = None \/ rd_messageIds data = Some []) /\
  queries (snd (handle initial_state (MessageRead "C" data true))) = [] /\
  emissions (snd (handle initial_state (MessageRead "C" data true))) = [].
Proof.
  intros data.
  split; [now left|].
  destruct (empty_read_rejected_on_server_only
              initial_state "C" data true (or_introl eq_refl))
    as (_ & _ & Hq & He & _).
  split; [exact Hq|exact He].
Defined.

(** C6, as stated, fails: the receipt goes to the user the event names
    as sender, whoever sent the messages.  Message 1 is sent by user 1
    (on connection A) to user 2; a read event for it that names user 3 as
    sender has its receipt delivered to C, the connection of user 3. *)
Lemma read_receipt_reaches_other_user :
  let st := run initial_state
                [RegisterUser "A" 1 true true; RegisterUser "B" 2 true true;
                 RegisterUser "C" 3 true true;
                 SendMessage "A" (mkSendData 1 2 "hi" 7) true true] in
  let ems := emissions (snd (handle st (MessageRead "B"
                                          (mkReadData (Some [1]) 3 2) true))) in
  rows (db st) = [mkMessage 1 1 2 "hi" true false] /\
  Obj.get 1 (userSockets st) = Some "A" /\
  ems = [(Some "C", messageReadReceipt 2 [1])] /\
  ~ (forall em c m,
        In em ems -> reaches c em ->
        In m (rows (db st)) -> In (message_id m) [1] ->
        Obj.get (sender_id m) (userSockets st) = Some c).
Proof.
  intros st ems. split; [reflexivity|]. split; [reflexivity|].
  split; [reflexivity|].
  intros H.
  specialize (H (Some "C", messageReadReceipt 2 [1]) "C"
                (mkMessage 1 1 2 "hi" true false)).
  assert (Hget : Obj.get 1 (userSockets st) = Some "C").
  { apply H; [now left|reflexivity|now left|now left]. }
  discriminate Hget.
Qed.

(** C6, amended.  A read event with a non-empty list of ids whose update
    succeeds emits at most one event, a [messageRead] receipt, to the
    socket id the registry holds for the sender named in the event, and
    to no other room; the handler does not look up who sent the listed
    messages, so the receipt reaches the connection of their sender when
    the event names that sender. *)
Theorem read_receipt_goes_to_named_sender :
  forall (st : State) (socket_id : SocketId) (data : ReadData)
         (i : MessageId) (ids : list MessageId),
    rd_messageIds data = Some (i :: ids) ->
    let S := Obj.get (rd_senderId data) (userSockets st) in
    let ems := emissions (snd (handle st (MessageRead socket_id data true))) in
    ems = (if truthy S
           then [(S, messageReadReceipt (rd_receiverId data) (i :: ids))]
           else []) /\
    (forall em c, In em ems -> reaches c em -> S = Some c) /\
    (forall em c m,
        In em ems -> reaches c em ->
        In m (rows (db st)) -> In (message_id m) (i :: ids) ->
        sender_id m = rd_senderId data ->
        Obj.get (sender_id m) (userSockets st) = Some c).
Proof.
  intros st socket_id data i ids Hids S ems.
  assert (Hems : ems = if truthy S
                       then [(S, messageReadReceipt (rd_receiverId data) (i :: ids))]
                       else []).
  { subst ems S. simpl. unfold messageRead. rewrite Hids. simpl.
    destruct (truthy _); reflexivity. }
  assert (Honly : forall em c, In em ems -> reaches c em -> S = Some c).
  { intros em c Hin Hreach. rewrite Hems in Hin.
    destruct (truthy S); [|contradiction].
    destruct Hin as [<-|[]]. exact Hreach. }
  split; [exact Hems|]. split; [exact Honly|].
  intros em c m Hin Hreach _ _ Hsender. rewrite Hsender.
  exact (Honly em c Hin Hreach).
Qed.

Lemma read_receipt_goes_to_named_sender_witness :
  let st := mkState [(1, "A"); (2, "B")] (mkDb [mkMessage 1 1 2 "hi" true false] 2) in
  let data := mkReadData (Some [1]) 1 2 in
  rd_messageIds data = Some [1] /\
  emissions (snd (handle st (MessageRead "B" data true)))
  = [(Some "A", messageReadReceipt 2 [1])].
Proof.
  intros st data. split; [reflexivity|].
  apply (proj1 (read_receipt_goes_to_named_sender st "B" data 1 [] eq_refl)).
Defined.

(** ** Failing queries *)

Lemma quiet_no_effects effs :
  forallb quiet effs = true -> emissions effs = [] /\ queries effs = [].
Proof.
  induction effs as [|eff effs IH]; simpl; [auto|].
  intros H. apply andb_true_iff in H. destruct H as [Hq Hall].
  destruct eff; try discriminate; auto.
Qed.

Lemma aborts_after_failure_split effs : forall pre q post,
  aborts_after_failure effs = true ->
  effs = pre ++ DbQuery q false :: post ->
  emissions post = [] /\ queries post = [].
Proof.
  intros pre. revert effs.
  induction pre as [|eff pre IH]; intros effs q post Hab ->; simpl in Hab.
  - now apply quiet_no_effects.
  - destruct eff as [q' [|]| | |]; try (now apply (IH _ q post Hab)).
    rewrite forallb_app in Hab. apply andb_true_iff in Hab.
    destruct Hab as [_ Hab]. discriminate Hab.
Qed.

Lemma emits_only_abort (A : Type) (f : A -> option SocketId) (g : A -> OutEvent)
      (l : list A) :
  aborts_after_failure
    (flat_map (fun x => if truthy (f x) then [Emit (f x) (g x)] else []) l) = true.
Proof.
  induction l as [|x l IH]; simpl; [reflexivity|].
  destruct (truthy (f x)); simpl; exact IH.
Qed.

Lemma handle_aborts_after_failure st ev :
  aborts_after_failure (snd (handle st ev)) = true.
Proof.
  destruct ev as [s k a b|s d a b|s d a|s d|s d|s]; simpl.
  - unfold registerUser. destruct (strict_eq _ _); simpl; [reflexivity|].
    destruct a; simpl; [|reflexivity]. destruct b; simpl; [|reflexivity].
    apply (emits_only_abort _ (fun m => Obj.get (sender_id m) _)
                            (fun m => messageDelivered (message_id m))).
  - unfold sendMessage. destruct a; simpl; [|reflexivity].
    destruct (truthy _); [destruct b|]; reflexivity.
  - unfold messageRead. destruct (rd_messageIds d) as [[|i ids]|];
      try reflexivity.
    destruct a; simpl; [|reflexivity]. destruct (truthy _); reflexivity.
  - unfold relay. destruct (truthy _); reflexivity.
  - unfold relay. destruct (truthy _); reflexivity.
  - unfold disconnect. destruct (bound_user _ _); reflexivity.
Qed.

(** C9.  A failed query ends the handling of its event: whatever a
    handler does after a query that failed, it is neither an emission nor
    another query (so the failed statement is not tried again).  A send
    whose insert fails emits nothing at all, no [messageSaved] and
    nothing to the receiver, and leaves the state as it was; a read whose
    update fails emits no receipt and leaves the state as it was. *)
Theorem store_failure_aborts_event :
  forall (st : State) (ev : Event) (pre post : list Effect) (q : Query),
    snd (handle st ev) = pre ++ DbQuery q false :: post ->
    (emissions post = [] /\ queries post = []) /\
    (forall socket_id data cnt_ok,
        ev = SendMessage socket_id data false cnt_ok ->
        fst (handle st ev) = st /\
        emissions (snd (handle st ev)) = [] /\
        List.length (queries (snd (handle st ev))) = 1%nat) /\
    (forall socket_id data,
        ev = MessageRead socket_id data false ->
        fst (handle st ev) = st /\
        emissions (snd (handle st ev)) = [] /\
        (List.length (queries (snd (handle st ev))) <= 1)%nat).
Proof.
  intros st ev pre post q Hsplit. split; [|split].
  - exact (aborts_after_failure_split _ pre q post
             (handle_aborts_after_failure st ev) Hsplit).
  - intros socket_id data cnt_ok ->. simpl. unfold sendMessage. simpl. auto.
  - intros socket_id data ->. simpl. unfold messageRead.
    destruct (rd_messageIds data) as [[|i ids]|]; simpl; auto.
Qed.

Lemma store_failure_aborts_event_witness :
  let ev := SendMessage "A" (mkSendData 1 2 "hi" 7) false true in
  snd (handle initial_state ev)
  = [] ++ DbQuery (QInsert 1 2 "hi" false) false
       :: [ConsoleError "Error saving message:"] /\
  fst (handle initial_state ev) = initial_state /\
  emissions (snd (handle initial_state ev)) = [].
Proof.
  intros ev. split; [reflexivity|].
  destruct (store_failure_aborts_event
              initial_state ev [] [ConsoleError "Error saving message:"]
              (QInsert 1 2 "hi" false) eq_refl) as (_ & Hsend & _).
  destruct (Hsend "A" (mkSendData 1 2 "hi" 7) true eq_refl) as (Hst & Hem & _).
  split; [exact Hst|exact Hem].
Defined.

(** ** The table under the handlers *)

(** What one event does to the table: nothing, one of the two updates,
    or one insert. *)
Lemma handle_db_cases st ev :
  db (fst (handle st ev)) = db st \/
  (exists s u a, ev = RegisterUser s u true a /\
                 db (fst (handle st ev)) = mark_delivered u (db st)) \/
  (exists s r t d, db (fst (handle st ev)) = fst (insert_message s r t d (db st))) \/
  (exists s data messageIds,
      ev = MessageRead s data true /\
      rd_messageIds data = Some messageIds /\
      db (fst (handle st ev)) = mark_read messageIds (db st)).
Proof.
  destruct ev as [s k a b|s d a b|s d a|s d|s d|s]; simpl.
  - unfold registerUser. destruct (strict_eq _ _); simpl; [now left|].
    destruct a; simpl; [|now left].
    right. left. exists s, k, b. split; [reflexivity|]. now destruct b.
  - unfold sendMessage. destruct a; simpl; [|now left].
    right. right. left.
    exists (sd_senderId d), (sd_receiverId d), (sd_text d),
      (truthy (Obj.get (sd_receiverId d) (userSockets st))).
    destruct (truthy _); [destruct b|]; reflexivity.
  - unfold messageRead. destruct (rd_messageIds d) as [[|i ids]|] eqn:E;
      simpl; try (now left).
    destruct a; simpl; [|now left].
    right. right. right. exists s, d, (i :: ids). auto.
  - left. now rewrite relay_state.
  - left. now rewrite relay_state.
  - left. unfold disconnect. destruct (bound_user _ _); reflexivity.
Qed.

Lemma mark_delivered_ids u d :
  map message_id (rows (mark_delivered u d)) = map message_id (rows d).
Proof.
  simpl. rewrite map_map. apply map_ext. intros m.
  now destruct (_ && _).
Qed.

Lemma mark_read_ids ids d :
  map message_id (rows (mark_read ids d)) = map message_id (rows d).
Proof.
  simpl. rewrite map_map. apply map_ext. intros m.
  now destruct (existsb _ _).
Qed.

Lemma Forall_ids_below (l l' : list Message) (n : MessageId) :
  map message_id l' = map message_id l ->
  Forall (fun m => message_id m < n) l ->
  Forall (fun m => message_id m < n) l'.
Proof.
  intros Hmap H.
  assert (Hids : Forall (fun i => i < n) (map message_id l))
    by (apply Forall_map; exact H).
  rewrite <- Hmap in Hids. now apply Forall_map in Hids.
Qed.

Lemma store_wf_same_ids d d' :
  map message_id (rows d') = map message_id (rows d) ->
  next_id d' = next_id d ->
  store_wf d -> store_wf d'.
Proof.
  intros Hmap Hnext [Hnd Hlt]. split.
  - now rewrite Hmap.
  - rewrite Hnext. now apply (Forall_ids_below (rows d)).
Qed.

Lemma store_wf_insert s r t dlv d :
  store_wf d -> store_wf (fst (insert_message s r t dlv d)).
Proof.
  intros [Hnd Hlt]. split; simpl.
  - rewrite map_app. simpl.
    apply NoDup_app; [exact Hnd|repeat constructor; intros []|].
    intros i Hi [<-|[]].
    apply in_map_iff in Hi. destruct Hi as (m & Hm & Hin).
    rewrite Forall_forall in Hlt. specialize (Hlt m Hin). lia.
  - apply Forall_app. split.
    + eapply Forall_impl; [|exact Hlt]. simpl. intros m Hm. lia.
    + repeat constructor. simpl. lia.
Qed.

Lemma store_wf_handle st ev :
  store_wf (db st) -> store_wf (db (fst (handle st ev))).
Proof.
  intros Hwf.
  destruct (handle_db_cases st ev)
    as [H|[(s & u & a & _ & H)|[(s & r & t & d & H)|(s & dt & ids & _ & _ & H)]]];
    rewrite H.
  - exact Hwf.
  - eapply store_wf_same_ids; [apply mark_delivered_ids|reflexivity|exact Hwf].
  - now apply store_wf_insert.
  - eapply store_wf_same_ids; [apply mark_read_ids|reflexivity|exact Hwf].
Qed.

Lemma store_wf_run evs : forall st,
  store_wf (db st) -> store_wf (db (run st evs)).
Proof.
  induction evs as [|ev evs IH]; intros st H; simpl; [exact H|].
  apply IH. now apply store_wf_handle.
Qed.

Lemma reachable_store_wf st : reachable st -> store_wf (db st).
Proof.
  intros [evs ->]. apply store_wf_run. split; simpl; constructor.
Qed.

(** A delivered row stays where it is and stays delivered. *)
Lemma handle_delivered_kept st ev i m :
  nth_error (rows (db st)) i = Some m ->
  delivered m = true ->
  exists m', nth_error (rows (db (fst (handle st ev)))) i = Some m' /\
             message_id m' = message_id m /\
             delivered m' = true.
Proof.
  intros Hnth Hd.
  destruct (handle_db_cases st ev)
    as [H|[(s & u & a & _ & H)|[(s & r & t & d & H)|(s & dt & ids & _ & _ & H)]]];
    rewrite H; simpl.
  - eauto.
  - rewrite nth_error_map, Hnth. simpl. eexists. split; [reflexivity|].
    destruct (_ && _); simpl; auto.
  - rewrite nth_error_app1 by (apply nth_error_Some; congruence). eauto.
  - rewrite nth_error_map, Hnth. simpl. eexists. split; [reflexivity|].
    destruct (existsb _ _); simpl; auto.
Qed.

Lemma handle_invariant_kept st ev :
  read_implies_delivered (db st) ->
  reads_only_delivered st ev ->
  read_implies_delivered (db (fst (handle st ev))).
Proof.
  intros Hinv Hev.
  destruct (handle_db_cases st ev)
    as [H|[(s & u & a & _ & H)|[(s & r & t & d & H)|(s & dt & ids & -> & Hids & H)]]];
    rewrite H; unfold read_implies_delivered; simpl.
  - exact Hinv.
  - intros m' Hin. apply in_map_iff in Hin. destruct Hin as (m & <- & Hin).
    destruct (_ && _); simpl; auto.
  - intros m' Hin. apply in_app_iff in Hin. destruct Hin as [Hin|[<-|[]]].
    + now apply Hinv.
    + simpl. unfold is_read_default. discriminate.
  - intros m' Hin. apply in_map_iff in Hin. destruct Hin as (m & <- & Hin).
    destruct (existsb _ _) eqn:E; simpl; [|now apply Hinv].
    intros _. apply existsb_exists in E. destruct E as (i & Hi & Heq).
    apply N.eqb_eq in Heq. subst i.
    exact (Hev ids m Hids Hin Hi).
Qed.

(** C1, as stated, fails: a message sent to an offline receiver is
    stored undelivered, and a read event that lists it marks it read
    without looking at its delivered flag. *)
Lemma read_before_delivered :
  let evs := [SendMessage "A" (mkSendData 1 2 "hi" 7) true true;
              MessageRead "B" (mkReadData (Some [1]) 1 2) true] in
  rows (db (run initial_state evs)) = [mkMessage 1 1 2 "hi" false true] /\
  ~ (forall evs' m,
        In m (rows (db (run initial_state evs'))) ->
        is_read m = true -> delivered m = true).
Proof.
  intros evs. split; [reflexivity|].
  intros H.
  specialize (H evs (mkMessage 1 1 2 "hi" false true) (or_introl eq_refl) eq_refl).
  discriminate H.
Qed.

(** C1, amended.  The delivered flag is monotonic: over any sequence of
    events a delivered row stays in place and stays delivered.  Every
    handler other than the read handler keeps "read implies delivered".
    The read handler marks every listed message read and leaves its
    delivered flag as it is, whatever it is: a listed message that is
    undelivered ends up read and undelivered.  So a read event whose
    update succeeds keeps the invariant exactly when every stored
    message it lists is already delivered. *)
Theorem delivered_monotonic_read_unguarded :
  (forall (st : State) (evs : list Event) (i : nat) (m : Message),
      nth_error (rows (db st)) i = Some m ->
      delivered m = true ->
      exists m', nth_error (rows (db (run st evs))) i = Some m' /\
                 message_id m' = message_id m /\
                 delivered m' = true) /\
  (forall (st : State) (ev : Event),
      read_implies_delivered (db st) ->
      reads_only_delivered st ev ->
      read_implies_delivered (db (fst (handle st ev)))) /\
  (forall (st : State) (socket_id : SocketId) (data : ReadData)
          (id : MessageId) (ids : list MessageId),
      rd_messageIds data = Some (id :: ids) ->
      let st' := fst (handle st (MessageRead socket_id data true)) in
      (forall i m,
          nth_error (rows (db st)) i = Some m ->
          nth_error (rows (db st')) i =
          Some (if existsb (N.eqb (message_id m)) (id :: ids)
                then set_is_read m else m)) /\
      (forall i m,
          nth_error (rows (db st)) i = Some m ->
          In (message_id m) (id :: ids) ->
          delivered m = false ->
          exists m', nth_error (rows (db st')) i = Some m' /\
                     message_id m' = message_id m /\
                     is_read m' = true /\ delivered m' = false) /\
      (read_implies_delivered (db st') ->
       forall m, In m (rows (db st)) -> In (message_id m) (id :: ids) ->
                 delivered m = true)).
Proof.
  split; [|split; [exact handle_invariant_kept|]].
  - intros st evs. revert st.
    induction evs as [|ev evs IH]; intros st i m Hnth Hd; simpl.
    + eauto.
    + destruct (handle_delivered_kept st ev i m Hnth Hd) as (m1 & H1 & Hid1 & Hd1).
      destruct (IH _ _ _ H1 Hd1) as (m2 & H2 & Hid2 & Hd2).
      exists m2. split; [exact H2|]. split; [congruence|exact Hd2].
  - intros st socket_id data id ids Hids st'.
    assert (Hdb : db st' = mark_read (id :: ids) (db st)).
    { subst st'. simpl. unfold messageRead. now rewrite Hids. }
    assert (Hlisted : forall m, In (message_id m) (id :: ids) ->
                                existsb (N.eqb (message_id m)) (id :: ids) = true).
    { intros m Hin. apply existsb_exists. exists (message_id m).
      split; [exact Hin|apply N.eqb_refl]. }
    assert (Hrow : forall i m,
               nth_error (rows (db st)) i = Some m ->
               nth_error (rows (db st')) i =
               Some (if existsb (N.eqb (message_id m)) (id :: ids)
                     then set_is_read m else m)).
    { intros i m Hnth. rewrite Hdb. unfold mark_read.
      cbn [rows]. now rewrite nth_error_map, Hnth. }
    split; [exact Hrow|]. split.
    + intros i m Hnth Hin Hd. exists (set_is_read m).
      rewrite (Hrow i m Hnth), (Hlisted m Hin). auto.
    + intros Hinv m Hin Hl.
      apply In_nth_error in Hin. destruct Hin as [i Hnth].
      pose proof (Hrow i m Hnth) as Hnth'. rewrite (Hlisted m Hl) in Hnth'.
      apply (Hinv (set_is_read m)); [|reflexivity].
      eapply nth_error_In; exact Hnth'.
Qed.

Lemma delivered_monotonic_read_unguarded_witness :
  let st := mkState [(1, "A")] (mkDb [mkMessage 1 1 2 "hi" true false;
                                     mkMessage 2 1 3 "yo" false false] 3) in
  let evs := [MessageRead "B" (mkReadData (Some [1]) 1 2) true;
              Disconnect "A"; RegisterUser "B" 2 true true] in
  let data := mkReadData (Some [2]) 1 3 in
  nth_error (rows (db st)) 0 = Some (mkMessage 1 1 2 "hi" true false) /\
  (exists m', nth_error (rows (db (run st evs))) 0 = Some m' /\
              message_id m' = 1 /\ delivered m' = true) /\
  rd_messageIds data = Some [2] /\
  nth_error (rows (db st)) 1 = Some (mkMessage 2 1 3 "yo" false false) /\
  (exists m', nth_error (rows (db (fst (handle st (MessageRead "C" data true))))) 1
              = Some m' /\
              message_id m' = 2 /\ is_read m' = true /\ delivered m' = false).
Proof.
  intros st evs data.
  destruct delivered_monotonic_read_unguarded as (Hmono & _ & Hread).
  split; [reflexivity|]. split.
  - apply (Hmono st evs 0%nat (mkMessage 1 1 2 "hi" true false) eq_refl eq_refl).
  - split; [reflexivity|]. split; [reflexivity|].
    destruct (Hread st "C" data 2 [] eq_refl) as (_ & Hundelivered & _).
    apply (Hundelivered 1%nat (mkMessage 2 1 3 "yo" false false) eq_refl).
    + now left.
    + reflexivity.
Defined.

(** ** Backlog reconciliation *)

Lemma emissions_app effs1 effs2 :
  emissions (effs1 ++ effs2) = emissions effs1 ++ emissions effs2.
Proof.
  induction effs1 as [|eff effs1 IH]; simpl; [reflexivity|].
  destruct eff; simpl; now rewrite IH.
Qed.

(** The emissions of a registration that goes through: one
    [messageDelivered] per selected row whose sender is online. *)
Lemma registerUser_emissions socket_id userId st :
  strict_eq (Obj.get userId (userSockets st)) socket_id = false ->
  let us := Obj.set userId socket_id (userSockets st) in
  emissions (snd (registerUser socket_id userId true true st)) =
  flat_map (fun message =>
              if truthy (Obj.get (sender_id message) us)
              then [(Obj.get (sender_id message) us,
                     messageDelivered (message_id message))]
              else [])
           (select_unread userId (mark_delivered userId (db st))).
Proof.
  intros Hne us. unfold registerUser. rewrite Hne. simpl. fold us.
  induction (select_unread userId (mark_delivered userId (db st)))
    as [|m l IH]; simpl; [reflexivity|].
  destruct (truthy (Obj.get (sender_id m) us)); simpl; now rewrite IH.
Qed.

Lemma filter_delivered_for (us : Obj.t) (M : MessageId) (l : list Message) :
  filter (fun em => is_delivered_for M (snd em))
         (flat_map (fun message =>
                      if truthy (Obj.get (sender_id message) us)
                      then [(Obj.get (sender_id message) us,
                             messageDelivered (message_id message))]
                      else []) l)
  = flat_map (fun message =>
                if truthy (Obj.get (sender_id message) us)
                then [(Obj.get (sender_id message) us,
                       messageDelivered (message_id message))]
                else [])
             (filter (fun message => message_id message =? M) l).
Proof.
  induction l as [|m l IH]; simpl; [reflexivity|].
  rewrite filter_app, IH.
  destruct (message_id m =? M) eqn:E; simpl;
    destruct (truthy (Obj.get (sender_id m) us)); simpl; rewrite ?E; reflexivity.
Qed.

Lemma filter_comm (A : Type) (f g : A -> bool) (l : list A) :
  filter f (filter g l) = filter g (filter f l).
Proof.
  induction l as [|x l IH]; simpl; [reflexivity|].
  destruct (f x) eqn:Ef, (g x) eqn:Eg; simpl; rewrite ?Ef, ?Eg, IH; reflexivity.
Qed.

(** With distinct ids, selecting by id yields the one row that has it. *)
Lemma filter_unique_id (l : list Message) : forall (n : nat) (m : Message),
  NoDup (map message_id l) ->
  nth_error l n = Some m ->
  filter (fun x => message_id x =? message_id m) l = [m].
Proof.
  induction l as [|x l IH]; intros n m Hnd Hnth; [now destruct n|].
  simpl in Hnd. inversion Hnd as [|? ? Hnotin Hnd']; subst.
  assert (Hnone : forall y, ~ In (message_id y) (map message_id l) ->
                            filter (fun x => message_id x =? message_id y) l = []).
  { intros y Hy. clear -Hy. induction l as [|z l IH]; simpl; [reflexivity|].
    simpl in Hy. destruct (message_id z =? message_id y) eqn:E.
    - apply N.eqb_eq in E. tauto.
    - apply IH. tauto. }
  destruct n as [|n]; simpl in *.
  - injection Hnth as ->. rewrite N.eqb_refl. now rewrite Hnone.
  - destruct (message_id x =? message_id m) eqn:E.
    + apply N.eqb_eq in E. exfalso. apply Hnotin. rewrite E.
      apply in_map. eapply nth_error_In; eassumption.
    + eapply IH; eassumption.
Qed.

(** A row under one event: it stays in place with its id, sender and
    receiver; its read flag is untouched unless a read event lists it,
    and its delivered flag is untouched unless its receiver registers
    with a delivered-mark that succeeds. *)
Lemma tracked_step st ev i m :
  nth_error (rows (db st)) i = Some m ->
  exists m', nth_error (rows (db (fst (handle st ev)))) i = Some m' /\
             message_id m' = message_id m /\
             sender_id m' = sender_id m /\
             receiver_id m' = receiver_id m /\
             (reads (message_id m) ev = false -> is_read m' = is_read m) /\
             (marks (receiver_id m) ev = false -> delivered m' = delivered m).
Proof.
  intros Hnth.
  destruct (handle_db_cases st ev)
    as [H|[(c & u & a & -> & H)|[(a & b & t & d & H)|(c & dt & ids & -> & Hids & H)]]];
    rewrite H; simpl.
  - exists m. auto 10.
  - rewrite nth_error_map, Hnth. simpl. eexists. split; [reflexivity|].
    destruct (receiver_id m =? u) eqn:Eu; simpl.
    + destruct (delivered m); simpl; repeat split; auto;
        intros Hf; rewrite N.eqb_sym, Eu in Hf; discriminate Hf.
    + auto 10.
  - rewrite nth_error_app1 by (apply nth_error_Some; congruence).
    exists m. auto 10.
  - rewrite nth_error_map, Hnth. simpl. eexists. split; [reflexivity|].
    rewrite Hids. destruct (existsb (N.eqb (message_id m)) ids); simpl.
    + repeat split; auto; intros Hf; discriminate Hf.
    + auto 10.
Qed.

Lemma tracked_run evs : forall st i m,
  nth_error (rows (db st)) i = Some m ->
  exists m', nth_error (rows (db (run st evs))) i = Some m' /\
             message_id m' = message_id m /\
             sender_id m' = sender_id m /\
             receiver_id m' = receiver_id m /\
             (existsb (reads (message_id m)) evs = false ->
              is_read m' = is_read m) /\
             (existsb (marks (receiver_id m)) evs = false ->
              delivered m' = delivered m).
Proof.
  induction evs as [|ev evs IH]; intros st i m Hnth; simpl.
  - exists m. auto 10.
  - destruct (tracked_step st ev i m Hnth)
      as (m1 & H1 & Hi1 & Hs1 & Hr1 & Hrd1 & Hd1).
    destruct (IH _ _ _ H1) as (m2 & H2 & Hi2 & Hs2 & Hr2 & Hrd2 & Hd2).
    rewrite Hi1 in Hrd2. rewrite Hr1 in Hd2.
    exists m2. split; [exact H2|]. repeat split; try congruence.
    + intros Hno. apply orb_false_iff in Hno. destruct Hno as [Ha Hb].
      rewrite (Hrd2 Hb). now apply Hrd1.
    + intros Hno. apply orb_false_iff in Hno. destruct Hno as [Ha Hb].
      rewrite (Hd2 Hb). now apply Hd1.
Qed.

(** C3, as stated, fails: user 1 is online and sends message 1 to user
    2, who has no binding; a read event lists the message before user 2
    registers.  The registration marks the row delivered, but its query
    selects unread rows only, so no [messageDelivered] goes to the
    sender. *)
Lemma read_in_between_suppresses_delivery_notice :
  let st := run initial_state [RegisterUser "A" 1 true true] in
  let sent := handle st (SendMessage "A" (mkSendData 1 2 "hi" 7) true true) in
  let mid := [MessageRead "B" (mkReadData (Some [1]) 1 2) true] in
  let reg := handle (run (fst sent) mid) (RegisterUser "B" 2 true true) in
  Obj.get 2 (userSockets st) = None /\
  rows (db (fst sent)) = [mkMessage 1 1 2 "hi" false false] /\
  existsb (registers 2) mid = false /\
  Obj.get 1 (userSockets (fst reg)) = Some "A" /\
  rows (db (fst reg)) = [mkMessage 1 1 2 "hi" true true] /\
  emissions (snd reg) = [] /\
  filter (fun em => is_delivered_for 1 (snd em)) (emissions (snd reg))
  <> [(Some "A", messageDelivered 1)].
Proof.
  repeat split; try reflexivity. discriminate.
Qed.

(** C3, amended.  After any history, a send to a receiver with no
    binding in the registry, whose insert succeeds, stores the message
    undelivered and unread under the id the counter hands out and emits
    [messageSaved] to the sender's binding and nothing else.  Whatever
    happens next, the row stays undelivered as long as no registration
    of the receiver runs a delivered-mark that succeeds.  When the
    receiver later registers successfully (the registration changes the
    receiver's binding and both its queries succeed), every row with
    that id is delivered; among the emissions of that registration there
    is exactly one [messageDelivered] for the message, to the sender's
    binding, if no read event has listed the message in the meantime and
    the sender is online at that moment, and there is none if the
    message has been marked read or the sender is offline. *)
Theorem offline_send_delivered_on_registration :
  forall (history : list Event) (socket_id : SocketId) (data : SendData)
         (cnt_ok : bool),
    let st := run initial_state history in
    Obj.get (sd_receiverId data) (userSockets st) = None ->
    let M := next_id (db st) in
    let sent := handle st (SendMessage socket_id data true cnt_ok) in
    rows (db (fst sent)) =
      rows (db st) ++ [mkMessage M (sd_senderId data) (sd_receiverId data)
                                 (sd_text data) false false] /\
    emissions (snd sent) =
      [(Obj.get (sd_senderId data) (userSockets st),
        messageSaved (sd_tempId data) M)] /\
    forall (mid : list Event) (socket_id' : SocketId),
      let st2 := run (fst sent) mid in
      let reg := handle st2 (RegisterUser socket_id' (sd_receiverId data)
                                          true true) in
      let S := Obj.get (sd_senderId data) (userSockets (fst reg)) in
      let notices :=
        filter (fun em => is_delivered_for M (snd em)) (emissions (snd reg)) in
      (existsb (marks (sd_receiverId data)) mid = false ->
       forall m, In m (rows (db st2)) -> message_id m = M ->
                 delivered m = false) /\
      (Obj.get (sd_receiverId data) (userSockets st2) <> Some socket_id' ->
       (exists m, In m (rows (db (fst reg))) /\ message_id m = M) /\
       (forall m, In m (rows (db (fst reg))) -> message_id m = M ->
                  delivered m = true) /\
       (existsb (reads M) mid = false ->
        notices = if truthy S then [(S, messageDelivered M)] else []) /\
       (forall m, In m (rows (db st2)) -> message_id m = M ->
                  is_read m = true -> notices = [])).
Proof.
  intros history socket_id data cnt_ok st Hoff M sent.
  assert (Hwf : store_wf (db st)).
  { subst st. apply store_wf_run. split; simpl; constructor. }
  assert (Hsent : fst sent =
                  mkState (userSockets st)
                          (fst (insert_message (sd_senderId data) (sd_receiverId data)
                                               (sd_text data) false (db st)))
                  /\ emissions (snd sent) =
                     [(Obj.get (sd_senderId data) (userSockets st),
                       messageSaved (sd_tempId data) M)]).
  { subst sent M. simpl. unfold sendMessage. rewrite Hoff. simpl. auto. }
  destruct Hsent as [Hst1 Hem1].
  split; [now rewrite Hst1|]. split; [exact Hem1|].
  intros mid socket_id' st2 reg S notices.
  set (n := List.length (rows (db st))).
  set (m0 := mkMessage M (sd_senderId data) (sd_receiverId data)
                       (sd_text data) false false).
  assert (Hnth1 : nth_error (rows (db (fst sent))) n = Some m0).
  { rewrite Hst1. simpl. rewrite nth_error_app2 by (subst n; lia).
    subst n. now rewrite PeanoNat.Nat.sub_diag. }
  assert (Hwf2 : store_wf (db st2)).
  { subst st2. apply store_wf_run. rewrite Hst1. now apply store_wf_insert. }
  destruct (tracked_run mid (fst sent) n m0 Hnth1)
    as (m & Hnth & Hid & Hs & Hr & Hrd & Hd).
  fold st2 in Hnth. simpl in Hid, Hs, Hr, Hrd, Hd.
  assert (Hunique : forall l n' m',
             NoDup (map message_id l) ->
             nth_error l n' = Some m' ->
             forall x, In x l -> message_id x = message_id m' -> x = m').
  { intros l n' m' Hnd Hn x Hin Hx.
    assert (Hf : In x (filter (fun y => message_id y =? message_id m') l))
      by (apply filter_In; split; [exact Hin|now apply N.eqb_eq]).
    rewrite (filter_unique_id l n' m' Hnd Hn) in Hf.
    destruct Hf as [<-|[]]. reflexivity. }
  assert (Hsame : forall x, In x (rows (db st2)) -> message_id x = M -> x = m).
  { intros x Hin Hx. destruct Hwf2 as [Hnd _].
    apply (Hunique _ _ _ Hnd Hnth x Hin). congruence. }
  split.
  { intros Hnomark x Hin Hx. rewrite (Hsame x Hin Hx). now apply Hd. }
  intros Hchange. apply strict_eq_false in Hchange. rename Hchange into Hne.
  set (m' := if (receiver_id m =? sd_receiverId data) && negb (delivered m)
             then set_delivered m else m).
  assert (Hm' : message_id m' = M /\ sender_id m' = sd_senderId data /\
                receiver_id m' = sd_receiverId data /\
                delivered m' = true /\ is_read m' = is_read m).
  { subst m'. rewrite Hr, N.eqb_refl. simpl.
    destruct (delivered m) eqn:Edl; simpl; auto. }
  destruct Hm' as (Hid' & Hs' & Hr' & Hd' & Hrd').
  assert (Hdb : db (fst reg) = mark_delivered (sd_receiverId data) (db st2)).
  { subst reg. simpl. unfold registerUser. now rewrite Hne. }
  assert (Hus : userSockets (fst reg) =
                Obj.set (sd_receiverId data) socket_id' (userSockets st2)).
  { subst reg. simpl. rewrite registerUser_userSockets. now rewrite Hne. }
  assert (Hnth' : nth_error (rows (db (fst reg))) n = Some m').
  { rewrite Hdb. simpl. now rewrite nth_error_map, Hnth. }
  assert (Hwf' : store_wf (db (fst reg))) by (now apply store_wf_handle).
  assert (Hnotices :
            notices = if is_read m then []
                      else if truthy S then [(S, messageDelivered M)] else []).
  { subst notices reg. simpl.
    rewrite (registerUser_emissions _ _ _ Hne). simpl.
    rewrite filter_delivered_for.
    unfold select_unread. rewrite filter_comm.
    fold (mark_delivered (sd_receiverId data) (db st2)). rewrite <- Hdb.
    rewrite <- Hid'.
    destruct Hwf' as [Hnd _].
    rewrite (filter_unique_id _ n m' Hnd Hnth'). simpl.
    rewrite Hr', N.eqb_refl, Hd', Hrd'. simpl.
    destruct (is_read m); simpl; [reflexivity|].
    rewrite app_nil_r. subst S. rewrite Hus, Hs', Hid'. reflexivity. }
  split; [|split; [|split]].
  - exists m'. split; [eapply nth_error_In; exact Hnth'|exact Hid'].
  - intros x Hin Hx. destruct Hwf' as [Hnd _].
    rewrite (Hunique _ _ _ Hnd Hnth' x Hin); [exact Hd'|congruence].
  - intros Hnoread. rewrite Hnotices, (Hrd Hnoread). reflexivity.
  - intros x Hin Hx Hread. rewrite (Hsame x Hin Hx) in Hread.
    rewrite Hnotices, Hread. reflexivity.
Qed.

Lemma offline_send_delivered_on_registration_witness :
  let history := [RegisterUser "A" 1 true true] in
  let st := run initial_state history in
  let data := mkSendData 1 2 "hi" 7 in
  let sent := handle st (SendMessage "A" data true true) in
  let mid := [RegisterUser "B" 2 false true; Disconnect "Z"] in
  let reg := handle (run (fst sent) mid) (RegisterUser "C" 2 true true) in
  Obj.get 2 (userSockets st) = None /\
  rows (db (fst sent)) = [mkMessage 1 1 2 "hi" false false] /\
  emissions (snd sent) = [(Some "A", messageSaved 7 1)] /\
  Obj.get 2 (userSockets (run (fst sent) mid)) <> Some "C" /\
  (forall m, In m (rows (db (fst reg))) -> message_id m = 1 ->
             delivered m = true) /\
  filter (fun em => is_delivered_for 1 (snd em)) (emissions (snd reg))
  = [(Some "A", messageDelivered 1)].
Proof.
  intros history st data sent mid reg.
  destruct (offline_send_delivered_on_registration
              history "A" data true eq_refl) as (Hrows & Hem & Hlater).
  assert (Hchange : Obj.get 2 (userSockets (run (fst sent) mid)) <> Some "C")
    by discriminate.
  destruct (Hlater mid "C") as (_ & Hreg).
  destruct (Hreg Hchange) as (_ & Hflip & Hone & _).
  split; [reflexivity|]. split; [exact Hrows|]. split; [exact Hem|].
  split; [exact Hchange|]. split; [exact Hflip|].
  exact (Hone eq_refl).
Defined.

(** * Further properties of the socket handlers *)

Lemma state_eta st : mkState (userSockets st) (db st) = st.
Proof. now destruct st. Qed.

Lemma db_eta d : mkDb (rows d) (next_id d) = d.
Proof. now destruct d. Qed.

(** X1.  Typing indicators are a pure relay: a [typing] or [stopTyping]
    event leaves the registry and the table alone, issues no query, and
    emits the same event with the same two ids to the receiver's binding
    when the receiver is online and nothing otherwise; so dropping all
    typing indicators from a sequence of events does not change the state
    it leads to. *)
Theorem typing_relay_transparent :
  forall (st : State) (socket_id : SocketId) (data : TypingData)
         (evs : list Event),
    let R := Obj.get (td_receiverId data) (userSockets st) in
    handle st (Typing socket_id data) =
      (st, if truthy R
           then [Emit R (typing (td_senderId data) (td_receiverId data))]
           else []) /\
    handle st (StopTyping socket_id data) =
      (st, if truthy R
           then [Emit R (stopTyping (td_senderId data) (td_receiverId data))]
           else []) /\
    run st (filter (fun ev => negb (is_relay ev)) evs) = run st evs.
Proof.
  intros st socket_id data evs R. subst R. simpl. unfold relay.
  split; [now destruct (truthy _)|]. split; [now destruct (truthy _)|].
  revert st. induction evs as [|ev evs IH]; intros st; simpl; [reflexivity|].
  destruct ev as [s k a b|s d a b|s d a|s d|s d|s]; simpl; rewrite ?IH;
    try reflexivity; now rewrite relay_state.
Qed.

(** X2.  What each event does to the registry.  A registration binds
    the registering user to the socket and leaves every other binding as
    it was.  A disconnect of a socket no user is bound to changes
    nothing; otherwise it unbinds one user that was bound to the socket
    and leaves every other binding as it was, also that of a second user
    bound to the same socket.  Sending, reading and typing leave the
    registry unchanged. *)
Theorem binding_changed_only_by_register_or_disconnect :
  forall (st : State) (ev : Event),
    let us := userSockets st in
    let us' := userSockets (fst (handle st ev)) in
    match ev with
    | RegisterUser s u _ _ =>
        forall k, Obj.get k us' = if k =? u then Some s else Obj.get k us
    | Disconnect c =>
        ((forall k, Obj.get k us <> Some c) /\ us' = us) \/
        (exists u, Obj.get u us = Some c /\
                   forall k, Obj.get k us' =
                             if k =? u then None else Obj.get k us)
    | _ => us' = us
    end.
Proof.
  intros st ev us us'. subst us us'.
  destruct ev as [s u a b|s d a b|s d a|s d|s d|c]; simpl.
  - intros k. rewrite registerUser_userSockets.
    destruct (strict_eq (Obj.get u (userSockets st)) s) eqn:E.
    + apply strict_eq_true in E.
      destruct (k =? u) eqn:Ek; [|reflexivity].
      apply N.eqb_eq in Ek. now subst k.
    + destruct (k =? u) eqn:Ek.
      * apply N.eqb_eq in Ek. subst k. apply ObjFacts.get_set_eq.
      * apply N.eqb_neq in Ek. apply ObjFacts.get_set_ne. congruence.
  - apply sendMessage_userSockets.
  - apply messageRead_userSockets.
  - now rewrite relay_state.
  - now rewrite relay_state.
  - rewrite disconnect_userSockets.
    destruct (bound_user c (userSockets st)) as [u|] eqn:E.
    + right. exists u. split; [now apply bound_user_Some in E|].
      intros k. apply ObjFacts.get_delete.
    + left. split; [now apply bound_user_None|reflexivity].
Qed.

(** The rows of the table under one event. *)
Lemma handle_row_kept st ev i m :
  nth_error (rows (db st)) i = Some m ->
  exists m', nth_error (rows (db (fst (handle st ev)))) i = Some m' /\
             message_id m' = message_id m /\
             sender_id m' = sender_id m /\
             receiver_id m' = receiver_id m /\
             message_text m' = message_text m /\
             (delivered m = true -> delivered m' = true) /\
             (is_read m = true -> is_read m' = true).
Proof.
  intros Hnth.
  destruct (handle_db_cases st ev)
    as [H|[(s & u & a & _ & H)|[(s & r & t & d & H)|(s & dt & ids & _ & _ & H)]]];
    rewrite H; simpl.
  - exists m. auto 10.
  - rewrite nth_error_map, Hnth. simpl. eexists. split; [reflexivity|].
    destruct (_ && _); simpl; auto 10.
  - rewrite nth_error_app1 by (apply nth_error_Some; congruence).
    exists m. auto 10.
  - rewrite nth_error_map, Hnth. simpl. eexists. split; [reflexivity|].
    destruct (existsb _ _); simpl; auto 10.
Qed.

(** X3.  The socket handlers never delete or rewrite a message: over any
    sequence of events a row stays at its place with the same id, sender,
    receiver and text, and its two flags can only go from false to
    true. *)
Theorem rows_only_gain_flags :
  forall (st : State) (evs : list Event) (i : nat) (m : Message),
    nth_error (rows (db st)) i = Some m ->
    exists m', nth_error (rows (db (run st evs))) i = Some m' /\
               message_id m' = message_id m /\
               sender_id m' = sender_id m /\
               receiver_id m' = receiver_id m /\
               message_text m' = message_text m /\
               (delivered m = true -> delivered m' = true) /\
               (is_read m = true -> is_read m' = true).
Proof.
  intros st evs. revert st.
  induction evs as [|ev evs IH]; intros st i m Hnth; simpl.
  - exists m. auto 10.
  - destruct (handle_row_kept st ev i m Hnth)
      as (m1 & H1 & Hi1 & Hs1 & Hr1 & Ht1 & Hd1 & Hrd1).
    destruct (IH _ _ _ H1) as (m2 & H2 & Hi2 & Hs2 & Hr2 & Ht2 & Hd2 & Hrd2).
    exists m2. split; [exact H2|]. repeat split; try congruence; auto.
Qed.

Lemma rows_only_gain_flags_witness :
  let st := mkState [(1, "A")] (mkDb [mkMessage 1 1 2 "hi" false false] 2) in
  let evs := [RegisterUser "B" 2 true true;
              MessageRead "B" (mkReadData (Some [1]) 1 2) true;
              SendMessage "A" (mkSendData 1 2 "yo" 8) true true;
              Disconnect "B"] in
  nth_error (rows (db st)) 0 = Some (mkMessage 1 1 2 "hi" false false) /\
  exists m', nth_error (rows (db (run st evs))) 0 = Some m' /\
             message_id m' = 1 /\ message_text m' = "hi".
Proof.
  intros st evs. split; [reflexivity|].
  destruct (rows_only_gain_flags st evs 0%nat _ eq_refl)
    as (m' & H & Hid & _ & _ & Ht & _).
  exists m'. auto.
Defined.

Lemma emissions_delivery_notices us (l : list Message) :
  emissions
    (flat_map (fun message =>
                 let senderSocketId := Obj.get (sender_id message) us in
                 if truthy senderSocketId
                 then [Emit senderSocketId (messageDelivered (message_id message))]
                 else []) l)
  = flat_map (delivery_notice us) l.
Proof.
  unfold delivery_notice. induction l as [|m l IH]; simpl; [reflexivity|].
  destruct (truthy (Obj.get (sender_id m) us)); simpl; now rewrite IH.
Qed.

Lemma truthy_Some v : truthy v = true -> exists c, v = Some c.
Proof. destruct v as [c|]; [eauto|discriminate]. Qed.

(** X4.  Whatever a handler emits goes to a room taken from the
    registry: an emission only reaches a socket id that some user is
    bound to in the registry the event leaves behind.  The only emissions
    to no room at all ([undefined]) are the acknowledgements of a send
    whose sender has no binding. *)
Theorem emissions_routed_through_registry :
  forall (st : State) (ev : Event) (em : option SocketId * OutEvent),
    In em (emissions (snd (handle st ev))) ->
    (forall c, reaches c em ->
               exists u, Obj.get u (userSockets (fst (handle st ev))) = Some c) /\
    (fst em = None ->
     exists s data a b,
       ev = SendMessage s data a b /\
       Obj.get (sd_senderId data) (userSockets st) = None /\
       (snd em = messageSaved (sd_tempId data) (next_id (db st)) \/
        snd em = messageDelivered (next_id (db st)))).
Proof.
  intros st ev em Hin.
  destruct ev as [s k a b|s d a b|s d a|s d|s d|s]; simpl in *.
  - (* registerUser *)
    pose proof (registerUser_userSockets s k a b st) as Hus.
    unfold registerUser in *.
    destruct (strict_eq (Obj.get k (userSockets st)) s); simpl in *; [contradiction|].
    destruct a; simpl in *; [|contradiction].
    destruct b; simpl in *; [|contradiction].
    rewrite emissions_delivery_notices in Hin.
    apply in_flat_map in Hin. destruct Hin as (m & _ & Hm).
    unfold delivery_notice in Hm.
    destruct (truthy (Obj.get (sender_id m) _)) eqn:Ht; [|contradiction].
    destruct Hm as [<-|[]]. unfold reaches. simpl. split.
    + intros c Hc. exists (sender_id m). exact Hc.
    + intros Hnone. rewrite Hnone in Ht. discriminate.
  - (* sendMessage *)
    rewrite sendMessage_userSockets. unfold sendMessage in Hin.
    destruct a; simpl in Hin; [|contradiction].
    assert (Hcases :
      em = (Obj.get (sd_senderId d) (userSockets st),
            messageSaved (sd_tempId d) (next_id (db st))) \/
      em = (Obj.get (sd_senderId d) (userSockets st),
            messageDelivered (next_id (db st))) \/
      (truthy (Obj.get (sd_receiverId d) (userSockets st)) = true /\
       fst em = Obj.get (sd_receiverId d) (userSockets st))).
    { destruct (truthy (Obj.get (sd_receiverId d) (userSockets st))) eqn:Ht;
        [destruct b|]; simpl in Hin.
      - destruct Hin as [<-|[<-|[<-|[<-|[]]]]]; auto.
      - destruct Hin as [<-|[]]; auto.
      - destruct Hin as [<-|[]]; auto. }
    unfold reaches. split.
    + intros c Hc.
      destruct Hcases as [->|[->|[_ He]]]; simpl in Hc.
      * now exists (sd_senderId d).
      * now exists (sd_senderId d).
      * exists (sd_receiverId d). congruence.
    + intros Hnone. exists s, d, true, b. split; [reflexivity|].
      destruct Hcases as [->|[->|[Ht He]]]; simpl in Hnone; auto.
      rewrite <- He, Hnone in Ht. discriminate.
  - (* messageRead *)
    rewrite messageRead_userSockets. unfold messageRead in Hin.
    destruct (rd_messageIds d) as [[|i ids]|]; simpl in Hin; try contradiction.
    destruct a; simpl in Hin; [|contradiction].
    destruct (truthy (Obj.get (rd_senderId d) (userSockets st))) eqn:Ht;
      simpl in Hin; [|contradiction].
    destruct Hin as [<-|[]]. unfold reaches. simpl. split.
    + intros c Hc. now exists (rd_senderId d).
    + intros Hnone. rewrite Hnone in Ht. discriminate.
  - rewrite relay_state. unfold relay in Hin.
    destruct (truthy (Obj.get (td_receiverId d) (userSockets st))) eqn:Ht;
      simpl in Hin; [|contradiction].
    destruct Hin as [<-|[]]. unfold reaches. simpl. split.
    + intros c Hc. now exists (td_receiverId d).
    + intros Hnone. rewrite Hnone in Ht. discriminate.
  - rewrite relay_state. unfold relay in Hin.
    destruct (truthy (Obj.get (td_receiverId d) (userSockets st))) eqn:Ht;
      simpl in Hin; [|contradiction].
    destruct Hin as [<-|[]]. unfold reaches. simpl. split.
    + intros c Hc. now exists (td_receiverId d).
    + intros Hnone. rewrite Hnone in Ht. discriminate.
  - unfold disconnect in Hin. destruct (bound_user _ _); contradiction.
Qed.

Lemma emissions_routed_through_registry_witness :
  let st := mkState [(1, "A"); (2, "B")] (mkDb [] 1) in
  let ev := SendMessage "A" (mkSendData 1 2 "hi" 7) true true in
  In (Some "B", receiveMessage 1 1 "hi") (emissions (snd (handle st ev))) /\
  exists u, Obj.get u (userSockets (fst (handle st ev))) = Some "B".
Proof.
  intros st ev.
  assert (Hin : In (Some "B", receiveMessage 1 1 "hi")
                   (emissions (snd (handle st ev))))
    by (simpl; auto).
  split; [exact Hin|].
  apply (proj1 (emissions_routed_through_registry st ev _ Hin) "B").
  reflexivity.
Defined.

Lemma count_unread_insert s r t dlv d :
  count_unread r (fst (insert_message s r t dlv d)) = count_unread r d + 1.
Proof.
  unfold count_unread, insert_message. simpl.
  rewrite filter_app, length_app. simpl. rewrite N.eqb_refl. simpl. lia.
Qed.

(** X5.  A send to a receiver who is online, whose queries succeed,
    stores the message already delivered (and unread), and the unread
    count it sends to the receiver counts the new message: it is the
    receiver's unread count before the send plus one, so never zero. *)
Theorem online_send_stored_delivered_and_counted :
  forall (st : State) (socket_id : SocketId) (data : SendData),
    let R := Obj.get (sd_receiverId data) (userSockets st) in
    truthy R = true ->
    let out := handle st (SendMessage socket_id data true true) in
    rows (db (fst out)) =
      rows (db st) ++ [mkMessage (next_id (db st)) (sd_senderId data)
                                 (sd_receiverId data) (sd_text data) true false] /\
    In (R, unreadMessagesCount (count_unread (sd_receiverId data) (db st) + 1))
       (emissions (snd out)) /\
    forall n, In (R, unreadMessagesCount n) (emissions (snd out)) -> 0 < n.
Proof.
  intros st socket_id data R HR out. subst out. simpl.
  unfold sendMessage. fold R. rewrite HR. simpl.
  pose proof (count_unread_insert (sd_senderId data) (sd_receiverId data)
                                  (sd_text data) true (db st)) as Hc.
  unfold insert_message in Hc. simpl in Hc. rewrite Hc.
  split; [reflexivity|]. split; [simpl; auto|].
  intros n Hin. simpl in Hin.
  destruct Hin as [H|[H|[H|[H|[]]]]]; try discriminate.
  injection H as <-. lia.
Qed.

Lemma online_send_stored_delivered_and_counted_witness :
  let st := mkState [(1, "A"); (2, "B")]
                    (mkDb [mkMessage 1 1 2 "hi" true false] 2) in
  truthy (Obj.get 2 (userSockets st)) = true /\
  In (Some "B", unreadMessagesCount 2)
     (emissions (snd (handle st (SendMessage "A" (mkSendData 1 2 "yo" 8)
                                             true true)))).
Proof.
  intros st. split; [reflexivity|].
  apply (online_send_stored_delivered_and_counted
           st "A" (mkSendData 1 2 "yo" 8) eq_refl).
Defined.

(** X6.  A registration that changes the binding and whose
    delivered-mark succeeds leaves no undelivered message addressed to
    the registering user, and does not touch the messages addressed to
    anyone else. *)
Theorem registration_clears_undelivered_backlog :
  forall (st : State) (socket_id : SocketId) (userId : UserId) (sel_ok : bool),
    Obj.get userId (userSockets st) <> Some socket_id ->
    let st' := fst (handle st (RegisterUser socket_id userId true sel_ok)) in
    (forall m, In m (rows (db st')) -> receiver_id m = userId ->
               delivered m = true) /\
    (forall i m, nth_error (rows (db st)) i = Some m ->
                 receiver_id m <> userId ->
                 nth_error (rows (db st')) i = Some m) /\
    List.length (rows (db st')) = List.length (rows (db st)).
Proof.
  intros st socket_id userId sel_ok Hne st'.
  apply strict_eq_false in Hne.
  assert (Hdb : db st' = mark_delivered userId (db st)).
  { subst st'. simpl. unfold registerUser. rewrite Hne. simpl.
    now destruct sel_ok. }
  rewrite Hdb. simpl. split; [|split].
  - intros m' Hin Hr. apply in_map_iff in Hin. destruct Hin as (m & <- & _).
    destruct ((receiver_id m =? userId) && negb (delivered m)) eqn:E;
      [reflexivity|].
    apply andb_false_iff in E. destruct E as [E|E].
    + apply N.eqb_neq in E. contradiction.
    + now apply negb_false_iff in E.
  - intros i m Hnth Hr. rewrite nth_error_map, Hnth. simpl.
    apply N.eqb_neq in Hr. now rewrite Hr.
  - apply length_map.
Qed.

Lemma registration_clears_undelivered_backlog_witness :
  let st := mkState [(1, "A")]
                    (mkDb [mkMessage 1 1 2 "hi" false false;
                           mkMessage 2 1 3 "yo" false false] 3) in
  let st' := fst (handle st (RegisterUser "B" 2 true true)) in
  Obj.get 2 (userSockets st) <> Some "B" /\
  (forall m, In m (rows (db st')) -> receiver_id m = 2 -> delivered m = true) /\
  nth_error (rows (db st')) 1 = Some (mkMessage 2 1 3 "yo" false false).
Proof.
  intros st st'.
  assert (H : Obj.get 2 (userSockets st) <> Some "B") by discriminate.
  destruct (registration_clears_undelivered_backlog st "B" 2 true H)
    as (Hall & Hother & _).
  split; [exact H|]. split; [exact Hall|].
  apply Hother; [reflexivity|discriminate].
Defined.

Lemma flat_map_filter_map (A B C : Type) (f : A -> B) (P : B -> bool)
      (g : B -> list C) (l : list A) :
  flat_map g (filter P (map f l))
  = flat_map (fun x => g (f x)) (filter (fun x => P (f x)) l).
Proof.
  induction l as [|x l IH]; simpl; [reflexivity|].
  destruct (P (f x)); simpl; now rewrite IH.
Qed.

(** X7.  What a registration emits.  A duplicate registration, or one
    whose delivered-mark or backlog query fails, emits nothing.  A
    registration that goes through emits, in table order, one
    [messageDelivered] for every unread message addressed to the
    registering user whose sender is online, to that sender's binding,
    whether the message was already delivered before or not, and nothing
    else. *)
Theorem registration_emissions :
  forall (st : State) (socket_id : SocketId) (userId : UserId)
         (upd_ok sel_ok : bool),
    emissions (snd (handle st (RegisterUser socket_id userId upd_ok sel_ok))) =
    if strict_eq (Obj.get userId (userSockets st)) socket_id
       || negb upd_ok || negb sel_ok
    then []
    else flat_map
           (delivery_notice (Obj.set userId socket_id (userSockets st)))
           (filter (fun m => (receiver_id m =? userId) && negb (is_read m))
                   (rows (db st))).
Proof.
  intros st socket_id userId upd_ok sel_ok. simpl. unfold registerUser.
  destruct (strict_eq (Obj.get userId (userSockets st)) socket_id); simpl;
    [reflexivity|].
  destruct upd_ok; simpl; [|reflexivity].
  destruct sel_ok; simpl; [|reflexivity].
  rewrite emissions_delivery_notices.
  unfold select_unread, mark_delivered. simpl.
  rewrite flat_map_filter_map.
  set (us := Obj.set userId socket_id (userSockets st)).
  rewrite (filter_ext _ (fun m => (receiver_id m =? userId) && negb (is_read m))).
  - apply flat_map_ext. intros m. unfold delivery_notice.
    now destruct ((receiver_id m =? userId) && negb (delivered m)).
  - intros m.
    destruct (receiver_id m =? userId) eqn:Er, (delivered m) eqn:Ed,
             (is_read m) eqn:Erd; simpl; rewrite ?Er, ?Ed, ?Erd; reflexivity.
Qed.

Lemma mark_read_idempotent ids d : mark_read ids (mark_read ids d) = mark_read ids d.
Proof.
  unfold mark_read. simpl. f_equal. rewrite map_map. apply map_ext.
  intros m. destruct (existsb (N.eqb (message_id m)) ids) eqn:E; simpl;
    now rewrite E.
Qed.

(** X8.  Reading is idempotent on the state but not on the wire: a read
    event that is handled a second time (with both updates succeeding)
    leaves the state exactly as the first handling left it, and emits
    the same receipt again. *)
Theorem repeated_read_same_state_same_receipt :
  forall (st : State) (s1 s2 : SocketId) (data : ReadData),
    let first := handle st (MessageRead s1 data true) in
    let second := handle (fst first) (MessageRead s2 data true) in
    fst second = fst first /\
    emissions (snd second) = emissions (snd first) /\
    queries (snd second) = queries (snd first).
Proof.
  intros st s1 s2 data first second. subst first second. simpl.
  unfold messageRead.
  destruct (rd_messageIds data) as [[|i ids]|]; simpl; auto.
  rewrite mark_read_idempotent. auto.
Qed.

Lemma mark_read_no_match ids d :
  (forall m, In m (rows d) -> ~ In (message_id m) ids) ->
  mark_read ids d = d.
Proof.
  intros H. unfold mark_read. rewrite <- (db_eta d) at 3. f_equal.
  rewrite <- (map_id (rows d)) at 2. apply map_ext_in. intros m Hin.
  destruct (existsb (N.eqb (message_id m)) ids) eqn:E; [|reflexivity].
  apply existsb_exists in E. destruct E as (i & Hi & Heq).
  apply N.eqb_eq in Heq. subst i. now apply H in Hin.
Qed.

(** X9.  The read handler does not check that its update changed
    anything: a read event that lists only ids no stored message has
    leaves the state as it was, and still sends the receipt for those ids
    to the named sender when that sender is online. *)
Theorem read_of_unknown_ids_still_acknowledged :
  forall (st : State) (socket_id : SocketId) (data : ReadData)
         (i : MessageId) (ids : list MessageId),
    rd_messageIds data = Some (i :: ids) ->
    (forall m, In m (rows (db st)) -> ~ In (message_id m) (i :: ids)) ->
    let S := Obj.get (rd_senderId data) (userSockets st) in
    fst (handle st (MessageRead socket_id data true)) = st /\
    emissions (snd (handle st (MessageRead socket_id data true))) =
      if truthy S
      then [(S, messageReadReceipt (rd_receiverId data) (i :: ids))]
      else [].
Proof.
  intros st socket_id data i ids Hids Hnone S. subst S. simpl.
  unfold messageRead. rewrite Hids. simpl.
  rewrite (mark_read_no_match _ _ Hnone), state_eta.
  split; [reflexivity|]. now destruct (truthy _).
Qed.

Lemma read_of_unknown_ids_still_acknowledged_witness :
  let st := mkState [(1, "A")] (mkDb [mkMessage 1 1 2 "hi" true false] 2) in
  let data := mkReadData (Some [5; 6]) 1 2 in
  rd_messageIds data = Some [5; 6] /\
  fst (handle st (MessageRead "B" data true)) = st /\
  emissions (snd (handle st (MessageRead "B" data true)))
  = [(Some "A", messageReadReceipt 2 [5; 6])].
Proof.
  intros st data. split; [reflexivity|].
  apply (read_of_unknown_ids_still_acknowledged st "B" data 5 [6] eq_refl).
  intros m [<-|[]] [H|[H|[]]]; discriminate H.
Defined.

Lemma mark_read_mark_delivered ids u d :
  mark_read ids (mark_delivered u d) = mark_delivered u (mark_read ids d).
Proof.
  unfold mark_read, mark_delivered. simpl. f_equal.
  rewrite !map_map. apply map_ext. intros m.
  destruct ((receiver_id m =? u) && negb (delivered m)) eqn:E1,
           (existsb (N.eqb (message_id m)) ids) eqn:E2; simpl;
    rewrite ?E1, ?E2; reflexivity.
Qed.

(** X10.  A read event and a registration lead to the same state in
    either order, whatever the outcomes of their queries: the two
    updates touch different columns, and reading does not change the
    registry.  (What is emitted does depend on the order.) *)
Theorem read_and_registration_commute_on_state :
  forall (st : State) (s1 s2 : SocketId) (data : ReadData) (userId : UserId)
         (r_ok upd_ok sel_ok : bool),
    run st [MessageRead s1 data r_ok; RegisterUser s2 userId upd_ok sel_ok] =
    run st [RegisterUser s2 userId upd_ok sel_ok; MessageRead s1 data r_ok].
Proof.
  intros st s1 s2 data userId r_ok upd_ok sel_ok. simpl.
  unfold messageRead, registerUser.
  destruct (strict_eq (Obj.get userId (userSockets st)) s2) eqn:E;
    destruct (rd_messageIds data) as [[|i ids]|];
    destruct r_ok, upd_ok, sel_ok; simpl; rewrite ?E; simpl;
      rewrite ?mark_read_mark_delivered; reflexivity.
Qed.

Lemma duplicate_registrations_keep_state s u evs : forall st,
  forallb (registers_on s u) evs = true ->
  Obj.get u (userSockets st) = Some s ->
  run st evs = st.
Proof.
  induction evs as [|ev evs IH]; intros st Hall Hb; simpl in *; [reflexivity|].
  apply andb_true_iff in Hall. destruct Hall as [Hev Hevs].
  destruct ev as [s' k a b|s' d a b|s' d a|s' d|s' d|s']; try discriminate.
  simpl in Hev. apply andb_true_iff in Hev. destruct Hev as [Hs Hk].
  apply String.eqb_eq in Hs. apply N.eqb_eq in Hk. subst s' k.
  simpl. unfold registerUser.
  apply strict_eq_true in Hb. rewrite Hb. simpl. apply IH; [exact Hevs|].
  now apply strict_eq_true.
Qed.

(** X11.  A registration binds the user before it marks the backlog, and
    a failure of the delivered-mark does not undo the binding: the user
    is bound to the socket, the table is as before, and registering the
    same user on the same socket again, however often, does not run the
    mark again, so the state stays as it is. *)
Theorem failed_delivered_mark_is_not_retried :
  forall (st : State) (socket_id : SocketId) (userId : UserId) (sel_ok : bool)
         (evs : list Event),
    forallb (registers_on socket_id userId) evs = true ->
    let st1 := fst (handle st (RegisterUser socket_id userId false sel_ok)) in
    Obj.get userId (userSockets st1) = Some socket_id /\
    db st1 = db st /\
    run st1 evs = st1.
Proof.
  intros st socket_id userId sel_ok evs Hall st1.
  assert (Hb : Obj.get userId (userSockets st1) = Some socket_id)
    by (subst st1; simpl; apply registerUser_binds).
  split; [exact Hb|]. split.
  - subst st1. simpl. unfold registerUser.
    now destruct (strict_eq _ _).
  - now apply (duplicate_registrations_keep_state socket_id userId).
Qed.

Lemma failed_delivered_mark_is_not_retried_witness :
  let st := mkState [] (mkDb [mkMessage 1 1 2 "hi" false false] 2) in
  let evs := [RegisterUser "B" 2 true true; RegisterUser "B" 2 true true] in
  forallb (registers_on "B" 2) evs = true /\
  rows (db (run (fst (handle st (RegisterUser "B" 2 false true))) evs))
  = [mkMessage 1 1 2 "hi" false false].
Proof.
  intros st evs. split; [reflexivity|].
  destruct (failed_delivered_mark_is_not_retried st "B" 2 true evs eq_refl)
    as (_ & Hdb & Hrun).
  rewrite Hrun, Hdb. reflexivity.
Defined.

Lemma delivery_notice_ids us (l : list Message) em :
  In em (flat_map (delivery_notice us) l) ->
  exists m, In m l /\ snd em = messageDelivered (message_id m).
Proof.
  intros Hin. apply in_flat_map in Hin. destruct Hin as (m & Hm & Hem).
  unfold delivery_notice in Hem.
  destruct (truthy (Obj.get (sender_id m) us)); [|contradiction].
  destruct Hem as [<-|[]]. eauto.
Qed.

Lemma delivery_notices_NoDup us (l : list Message) :
  NoDup (map message_id l) ->
  NoDup (map snd (flat_map (delivery_notice us) l)).
Proof.
  induction l as [|m l IH]; simpl; intros Hnd; [constructor|].
  inversion Hnd as [|? ? Hnotin Hnd']; subst.
  rewrite map_app. unfold delivery_notice at 1.
  destruct (truthy (Obj.get (sender_id m) us)); simpl; [|now apply IH].
  constructor; [|now apply IH].
  intros Hin. apply in_map_iff in Hin. destruct Hin as (em & Hem & Hin).
  apply delivery_notice_ids in Hin. destruct Hin as (m' & Hm' & Hsnd).
  rewrite Hsnd in Hem. injection Hem as Hid.
  apply Hnotin. rewrite <- Hid. now apply in_map.
Qed.

Lemma NoDup_map_filter (A B : Type) (f : A -> B) (P : A -> bool) (l : list A) :
  NoDup (map f l) -> NoDup (map f (filter P l)).
Proof.
  induction l as [|x l IH]; simpl; intros Hnd; [constructor|].
  inversion Hnd as [|? ? Hnotin Hnd']; subst.
  destruct (P x); simpl; [|now apply IH].
  constructor; [|now apply IH].
  intros Hin. apply Hnotin. apply in_map_iff in Hin.
  destruct Hin as (y & Hy & Hin). apply filter_In in Hin.
  rewrite <- Hy. apply in_map. tauto.
Qed.

(** X18.  In a state the handlers can reach, one registration never
    announces the same message twice: the [messageDelivered] events it
    emits carry pairwise different message ids, and it emits nothing but
    [messageDelivered] events. *)
Theorem registration_announces_each_message_once :
  forall (st : State) (socket_id : SocketId) (userId : UserId)
         (upd_ok sel_ok : bool),
    reachable st ->
    let ems :=
      emissions (snd (handle st (RegisterUser socket_id userId upd_ok sel_ok))) in
    NoDup (map snd ems) /\
    (forall em, In em ems ->
       exists m, In m (rows (db st)) /\ receiver_id m = userId /\
                 snd em = messageDelivered (message_id m)).
Proof.
  intros st socket_id userId upd_ok sel_ok Hreach ems. subst ems.
  rewrite registration_emissions.
  destruct (strict_eq _ _ || negb upd_ok || negb sel_ok);
    [split; [constructor|intros em []]|].
  destruct (reachable_store_wf st Hreach) as [Hnd _]. split.
  - apply delivery_notices_NoDup. now apply NoDup_map_filter.
  - intros em Hin. apply delivery_notice_ids in Hin.
    destruct Hin as (m & Hm & Hsnd). apply filter_In in Hm.
    destruct Hm as [Hm HP]. apply andb_true_iff in HP. destruct HP as [Hr _].
    apply N.eqb_eq in Hr. eauto.
Qed.

Lemma registration_announces_each_message_once_witness :
  let st := run initial_state
                [RegisterUser "A" 1 true true;
                 SendMessage "A" (mkSendData 1 2 "hi" 7) true true;
                 SendMessage "A" (mkSendData 1 2 "yo" 8) true true] in
  reachable st /\
  emissions (snd (handle st (RegisterUser "B" 2 true true)))
  = [(Some "A", messageDelivered 1); (Some "A", messageDelivered 2)] /\
  NoDup (map snd (emissions (snd (handle st (RegisterUser "B" 2 true true))))).
Proof.
  intros st.
  assert (Hreach : reachable st) by (now eexists).
  split; [exact Hreach|]. split; [reflexivity|].
  apply (proj1 (registration_announces_each_message_once
                  st "B" 2 true true Hreach)).
Defined.

(** * The history route *)

Module HistoryFacts.

Import History.

Section Columns.

Variable Value : Type.

Local Abbreviation Row := (Row Value).
Local Abbreviation Item := (Item Value).
Local Abbreviation Groups := (Groups Value).

Lemma groups_get_set_eq k v (g : Groups) : get k (set k v g) = Some v.
Proof.
  induction g as [|[k' v'] g IH]; simpl.
  - now rewrite N.eqb_refl.
  - destruct (k =? k') eqn:E; simpl.
    + now rewrite N.eqb_refl.
    + destruct (goes_before k k'); simpl.
      * now rewrite N.eqb_refl.
      * now rewrite E.
Qed.

Lemma groups_get_set_ne k k' v (g : Groups) : k <> k' -> get k' (set k v g) = get k' g.
Proof.
  intros Hne. apply N.eqb_neq in Hne. rewrite N.eqb_sym in Hne.
  induction g as [|[k0 v0] g IH]; simpl.
  - now rewrite Hne.
  - destruct (k =? k0) eqn:E; simpl.
    + apply N.eqb_eq in E. subst k0. now rewrite Hne.
    + destruct (goes_before k k0); simpl.
      * now rewrite Hne.
      * now rewrite IH.
Qed.

Lemma get_push k k' (x : Item) (g : Groups) :
  get k' (push k x g) =
  if k' =? k then option_map (fun v => v ++ [x]) (get k g) else get k' g.
Proof.
  induction g as [|[k0 v0] g IH]; simpl.
  - now destruct (k' =? k).
  - destruct (k =? k0) eqn:E; simpl.
    + apply N.eqb_eq in E. subst k0.
      destruct (k' =? k) eqn:E'; [reflexivity|reflexivity].
    + rewrite IH. destruct (k' =? k) eqn:E'.
      * apply N.eqb_eq in E'. subst k'. now rewrite E.
      * reflexivity.
Qed.

(** One step of the loop, seen through the lookups. *)
Lemma get_add_message parsed (g : Groups) (msg : Row) k :
  get k (add_message parsed g msg) =
  if k =? chatPartnerId parsed msg
  then Some (match get k g with Some v => v | None => [] end ++ [to_item msg])
  else get k g.
Proof.
  unfold add_message. rewrite get_push.
  destruct (k =? chatPartnerId parsed msg) eqn:E.
  - apply N.eqb_eq in E. subst k.
    destruct (get (chatPartnerId parsed msg) g) eqn:Hg.
    + now rewrite Hg.
    + now rewrite groups_get_set_eq.
  - apply N.eqb_neq in E.
    destruct (get (chatPartnerId parsed msg) g); [reflexivity|].
    apply groups_get_set_ne. congruence.
Qed.

Lemma get_fold parsed (rs : list Row) : forall (g : Groups) k,
  get k (fold_left (add_message parsed) rs g) =
  match get k g, filter (fun msg => chatPartnerId parsed msg =? k) rs with
  | None, [] => None
  | o, l => Some (match o with Some v => v | None => [] end ++ map to_item l)
  end.
Proof.
  induction rs as [|msg rs IH]; intros g k; simpl.
  - destruct (get k g) as [v|]; [now rewrite app_nil_r|reflexivity].
  - rewrite IH, get_add_message. rewrite (N.eqb_sym k).
    destruct (chatPartnerId parsed msg =? k) eqn:E; simpl.
    + destruct (get k g) as [v|]; simpl; [now rewrite <- app_assoc|reflexivity].
    + reflexivity.
Qed.

(** X12.  The grouping loop of the history route is a partition by chat
    partner that keeps the order of the query: the entry of
    [groupedMessages] for a user holds exactly the returned messages
    whose chat partner that user is, in the order the query returned
    them, and a user who is the partner of no returned message has no
    entry (so no entry is an empty array). *)
Theorem group_is_filter_by_partner :
  forall (parsed : option Z) (messagesResults : list Row) (k : N),
    get k (group_messages parsed messagesResults) =
    match filter (fun msg => chatPartnerId parsed msg =? k) messagesResults with
    | [] => None
    | l => Some (map to_item l)
    end.
Proof.
  intros parsed rs k. unfold group_messages. rewrite get_fold. simpl.
  now destruct (filter _ rs).
Qed.

Lemma concat_set_empty k (g : Groups) :
  get k g = None ->
  List.concat (map snd (set k [] g)) = List.concat (map snd g).
Proof.
  induction g as [|[k' v'] g IH]; simpl; [reflexivity|].
  destruct (k =? k') eqn:E; [discriminate|].
  intros Hg. destruct (goes_before k k'); simpl; [reflexivity|].
  now rewrite IH.
Qed.

Lemma concat_push k (x : Item) (g : Groups) :
  get k g <> None ->
  Permutation (List.concat (map snd (push k x g))) (List.concat (map snd g) ++ [x]).
Proof.
  induction g as [|[k' v'] g IH]; simpl; [congruence|].
  destruct (k =? k') eqn:E; simpl.
  - intros _. rewrite <- !app_assoc. apply Permutation_app_head.
    apply Permutation_app_comm.
  - intros Hg. rewrite <- app_assoc. apply Permutation_app_head. now apply IH.
Qed.

Lemma concat_add_message parsed (g : Groups) (msg : Row) :
  Permutation (List.concat (map snd (add_message parsed g msg)))
              (List.concat (map snd g) ++ [to_item msg]).
Proof.
  unfold add_message.
  destruct (get (chatPartnerId parsed msg) g) eqn:Hg.
  - apply concat_push. congruence.
  - rewrite <- (concat_set_empty _ _ Hg). apply concat_push.
    rewrite groups_get_set_eq. discriminate.
Qed.

(** X13.  The history route neither loses nor repeats a message: the
    arrays of [groupedMessages] taken together hold each returned
    message exactly once. *)
Theorem group_keeps_every_message_once :
  forall (parsed : option Z) (messagesResults : list Row),
    Permutation (List.concat (map snd (group_messages parsed messagesResults)))
                (map to_item messagesResults).
Proof.
  intros parsed rs. unfold group_messages.
  assert (H : forall (g : Groups),
             Permutation (List.concat (map snd (fold_left (add_message parsed) rs g)))
                         (List.concat (map snd g) ++ map to_item rs)).
  { induction rs as [|msg rs IH]; intros g; simpl.
    - now rewrite app_nil_r.
    - rewrite IH. rewrite (concat_add_message parsed g msg).
      now rewrite <- app_assoc. }
  apply (H []).
Qed.

(** X14.  When the query returned only messages that involve the user
    [cur] (as its [WHERE] clause says) and [parseInt] read the same
    [cur] from the URL, the entry for another user [k] is the
    conversation between [cur] and [k]: the messages [cur] sent to [k]
    and those [k] sent to [cur], in query order; the entry for [cur]
    itself holds the messages [cur] sent to itself. *)
Theorem group_is_conversation :
  forall (cur : N) (messagesResults : list Row) (k : N),
    forallb (involves cur) messagesResults = true ->
    get k (group_messages (Some (Z.of_N cur)) messagesResults) =
    match filter (between cur k) messagesResults with
    | [] => None
    | l => Some (map to_item l)
    end.
Proof.
  intros cur rs k Hall. rewrite group_is_filter_by_partner.
  rewrite (filter_ext_in _ (between cur k)); [reflexivity|].
  intros msg Hin. rewrite forallb_forall in Hall. specialize (Hall msg Hin).
  unfold involves in Hall. unfold chatPartnerId, between, is_current.
  replace (Z.eqb (Z.of_N (sender_id msg)) (Z.of_N cur))
    with (sender_id msg =? cur).
  2:{ destruct (sender_id msg =? cur) eqn:E.
      - apply N.eqb_eq in E. rewrite E. symmetry. apply Z.eqb_refl.
      - symmetry. apply Z.eqb_neq. apply N.eqb_neq in E. lia. }
  destruct (sender_id msg =? cur) eqn:Es, (receiver_id msg =? cur) eqn:Er,
           (receiver_id msg =? k) eqn:Erk, (sender_id msg =? k) eqn:Esk;
    simpl in *; try reflexivity; try discriminate;
    repeat match goal with
           | H : (_ =? _) = true |- _ => apply N.eqb_eq in H
           | H : (_ =? _) = false |- _ => apply N.eqb_neq in H
           end; congruence.
Qed.

End Columns.

End HistoryFacts.

(** * The S3 key of an attached file *)

Module MediaFacts.

Import Media.

Lemma starts_with_nth sep : forall s i c,
  starts_with sep s = true ->
  nth_error sep i = Some c ->
  nth_error s i = Some c.
Proof.
  induction sep as [|a sep IH]; intros s i c Hs Hn; [now destruct i|].
  destruct s as [|b s]; simpl in Hs; [discriminate|].
  apply andb_true_iff in Hs. destruct Hs as [Hab Hs].
  apply Ascii.eqb_eq in Hab. subst b.
  destruct i as [|i]; simpl in *; [exact Hn|]. now apply (IH s i c).
Qed.

Lemma starts_with_app sep rest : starts_with sep (sep ++ rest) = true.
Proof.
  induction sep as [|a sep IH]; simpl; [reflexivity|].
  now rewrite Ascii.eqb_refl, IH.
Qed.

(** A separator that occurs right after [pre], and nowhere earlier, is
    where [cut] cuts. *)
Lemma cut_found sep rest : sep <> [] -> forall pre,
  (forall o, (o < List.length pre)%nat ->
             starts_with sep (skipn o (pre ++ sep ++ rest)) = false) ->
  cut sep (pre ++ sep ++ rest) = (pre, Some rest).
Proof.
  intros Hsep pre. induction pre as [|c pre IH]; intros Hno.
  - simpl. destruct (sep ++ rest) as [|c s] eqn:E.
    + destruct sep; [congruence|discriminate].
    + simpl. rewrite <- E at 1. rewrite starts_with_app.
      rewrite <- E. rewrite skipn_app, skipn_all, PeanoNat.Nat.sub_diag.
      reflexivity.
  - change ((c :: pre) ++ sep ++ rest) with (c :: (pre ++ sep ++ rest)).
    cbn [cut].
    assert (H0 : starts_with sep (c :: pre ++ sep ++ rest) = false).
    { apply (Hno 0%nat). simpl. lia. }
    rewrite H0. rewrite IH; [reflexivity|].
    intros o Ho. apply (Hno (S o)). simpl. lia.
Qed.

Lemma cut_without_separator sep : forall s,
  snd (cut sep s) = None -> fst (cut sep s) = s.
Proof.
  induction s as [|c s IH]; simpl; [reflexivity|].
  destruct (starts_with sep (c :: s)); simpl; [discriminate|].
  destruct (cut sep s) as [piece rest]. simpl in *.
  intros H. now rewrite IH.
Qed.

Lemma cut_before_occurrence sep k2 : sep <> [] -> forall k1,
  (List.length (fst (cut sep (k1 ++ sep ++ k2))) <= List.length k1)%nat.
Proof.
  intros Hsep k1. induction k1 as [|c k1 IH].
  - simpl. destruct (sep ++ k2) as [|c s] eqn:E; [simpl; lia|].
    simpl. rewrite <- E at 1. rewrite starts_with_app. simpl. lia.
  - change ((c :: k1) ++ sep ++ k2) with (c :: (k1 ++ sep ++ k2)).
    cbn [cut]. destruct (starts_with sep (c :: k1 ++ sep ++ k2)); simpl; [lia|].
    destruct (cut sep (k1 ++ sep ++ k2)) as [piece rest]. simpl in *. lia.
Qed.

Lemma Forall_nth_error (A : Type) (P : A -> Prop) (l : list A) i x :
  Forall P l -> nth_error l i = Some x -> P x.
Proof.
  intros HF Hn. rewrite Forall_forall in HF. apply HF.
  eapply nth_error_In; eassumption.
Qed.

(** In the text before the key, no occurrence of the separator starts
    before the one the URL is built with. *)
Lemma no_early_separator bucket region key o :
  no_slash bucket -> no_slash region ->
  let pre := of_string "https://" ++ bucket ++ of_string ".s3." ++ region in
  (o < List.length pre)%nat ->
  starts_with separator (skipn o (pre ++ separator ++ key)) = false.
Proof.
  intros Hb Hr pre Ho.
  destruct (starts_with separator (skipn o (pre ++ separator ++ key))) eqn:E;
    [exfalso|reflexivity].
  assert (Hslash : nth_error (skipn o (pre ++ separator ++ key)) 14 = Some slash)
    by (apply (starts_with_nth separator _ 14 slash E); reflexivity).
  rewrite nth_error_skipn in Hslash.
  destruct (PeanoNat.Nat.lt_ge_cases (o + 14) (List.length pre)) as [Hin|Hout].
  - rewrite nth_error_app1 in Hslash by exact Hin.
    subst pre.
    rewrite nth_error_app2 in Hslash by (simpl; lia).
    assert (Hns : no_slash (bucket ++ of_string ".s3." ++ region)).
    { unfold no_slash. apply Forall_app. split; [exact Hb|].
      apply Forall_app. split; [|exact Hr].
      repeat constructor; discriminate. }
    now apply (Forall_nth_error _ _ _ _ _ Hns Hslash).
  - rewrite nth_error_app2 in Hslash by exact Hout.
    rewrite nth_error_app1 in Hslash
      by (change (List.length separator) with 15%nat; lia).
    assert (Hj : (o + 14 - List.length pre < 14)%nat) by lia.
    revert Hslash. generalize (o + 14 - List.length pre)%nat as j, Hj.
    intros j Hj'.
    do 14 (destruct j as [|j]; [discriminate|]). lia.
Qed.

(** X16.  The key the delete route reads off a file URL that the upload
    route built (bucket and region without a slash): it is the key up to
    its first occurrence of [.amazonaws.com/].  So the key comes back
    unchanged when it does not contain that text, and cut short, hence
    changed, when it does. *)
Theorem s3_key_of_file_url :
  forall (bucket region key : text),
    no_slash bucket -> no_slash region ->
    s3_key (file_url bucket region key) = Some (fst (cut separator key)) /\
    (snd (cut separator key) = None ->
     s3_key (file_url bucket region key) = Some key) /\
    (forall k1 k2, key = k1 ++ separator ++ k2 ->
                   s3_key (file_url bucket region key) <> Some key).
Proof.
  intros bucket region key Hb Hr.
  assert (Hsep : separator <> []) by discriminate.
  assert (Hkey : s3_key (file_url bucket region key)
                 = Some (fst (cut separator key))).
  { unfold s3_key, split_second, file_url.
    change (of_string ".amazonaws.com/") with separator.
    replace (of_string "https://" ++ bucket ++ of_string ".s3." ++ region
                       ++ separator ++ key)
      with ((of_string "https://" ++ bucket ++ of_string ".s3." ++ region)
              ++ separator ++ key)
      by (now rewrite <- !app_assoc).
    rewrite (cut_found separator key Hsep); [reflexivity|].
    intros o Ho. now apply no_early_separator. }
  split; [exact Hkey|]. split.
  - intros Hnone. rewrite Hkey. now rewrite cut_without_separator.
  - intros k1 k2 Hk Heq. rewrite Hkey in Heq.
    assert (Hf : fst (cut separator key) = key) by congruence.
    pose proof (cut_before_occurrence separator k2 Hsep k1) as Hlen.
    rewrite <- Hk, Hf in Hlen. rewrite Hk in Hlen.
    rewrite !length_app in Hlen.
    change (List.length separator) with 15%nat in Hlen. lia.
Qed.

Lemma s3_key_of_file_url_witness :
  let bucket := of_string "link-media" in
  let region := of_string "eu-west-1" in
  let key := upload_key (of_string "1700000000000") (of_string "cat.png") in
  no_slash bucket /\ no_slash region /\
  snd (cut separator key) = None /\
  s3_key (file_url bucket region key)
  = Some (of_string "chat/1700000000000_cat.png").
Proof.
  intros bucket region key.
  assert (Hb : no_slash bucket) by (repeat constructor; discriminate).
  assert (Hr : no_slash region) by (repeat constructor; discriminate).
  split; [exact Hb|]. split; [exact Hr|]. split; [reflexivity|].
  apply (proj1 (proj2 (s3_key_of_file_url bucket region key Hb Hr))).
  reflexivity.
Defined.

End MediaFacts.

(** * The delete route and the notification routes *)

Module RouteFacts.

Section Delete.

Import History.

Variable Value : Type.

(** X15.  The delete route, case by case.  Without an id it answers 400
    and issues no query.  When its [SELECT] fails it answers 500 with
    the error's text; when the [SELECT] finds no message with the id it
    answers 404; when the message is found and the [DELETE] fails it
    answers 500 with the error's text; in all these cases the table is
    left as it was.  When the message is found and the [DELETE]
    succeeds, the rows with that id, and only those, are gone, and the
    answer is the success message.  So the answer is a success exactly
    when a found message was deleted, the [DELETE] is issued only for a
    message the [SELECT] found, and whether the attached file could be
    removed from S3 changes neither the table nor the answer. *)
Theorem delete_route_removes_exactly_the_message :
  forall (messageId : option N) (sel_err del_err : option string)
         (s3_ok s3_ok' : bool) (table : list (Row Value)),
    let out := delete_message messageId sel_err del_err s3_ok table in
    let table' := fst (fst out) in
    let response := snd (fst out) in
    fst (delete_message messageId sel_err del_err s3_ok' table) = fst out /\
    (messageId = None ->
     table' = table /\ snd out = [] /\
     response = mkResponse 400 false (Some "Message ID is required.") None) /\
    (forall n e, messageId = Some n -> sel_err = Some e ->
       table' = table /\ snd out = [SelectFileUrl n false] /\
       response = mkResponse 500 false (Some e) None) /\
    (forall n, messageId = Some n -> sel_err = None ->
       (forall r, In r table -> message_id r <> n) ->
       table' = table /\ snd out = [SelectFileUrl n true] /\
       response = mkResponse 404 false (Some "Message not found.") None) /\
    (forall n e r, messageId = Some n -> sel_err = None ->
       In r table -> message_id r = n -> del_err = Some e ->
       table' = table /\
       snd out = [SelectFileUrl n true; DeleteMessage n false] /\
       response = mkResponse 500 false (Some e) None) /\
    (forall n r, messageId = Some n -> sel_err = None -> del_err = None ->
       In r table -> message_id r = n ->
       table' = filter (fun r => negb (message_id r =? n)) table /\
       (forall x, In x table' <-> In x table /\ message_id x <> n) /\
       response = mkResponse 200 true None
                             (Some "Message deleted successfully.")) /\
    (success response = true <->
     exists n r, messageId = Some n /\ sel_err = None /\ del_err = None /\
                 In r table /\ message_id r = n) /\
    (forall n ok, In (DeleteMessage n ok) (snd out) ->
                  exists r, In r table /\ message_id r = n).
Proof.
  intros messageId sel_err del_err s3_ok s3_ok' table out table' response.
  subst out table' response. unfold delete_message.
  destruct messageId as [n|]; simpl.
  2:{ split; [reflexivity|]. split; [auto|].
      split; [intros n e H; discriminate H|].
      split; [intros n H; discriminate H|].
      split; [intros n e r H; discriminate H|].
      split; [intros n r H; discriminate H|].
      split; [|intros n ok []].
      split; [intros H; discriminate H|].
      intros (n & r & H & _). discriminate H. }
  destruct sel_err as [e|]; simpl.
  { split; [reflexivity|]. split; [intros H; discriminate H|].
    split; [intros n' e' [= <-] [= <-]; auto|].
    split; [intros n' _ H; discriminate H|].
    split; [intros n' e' r _ H; discriminate H|].
    split; [intros n' r _ H; discriminate H|].
    split; [|intros n' ok [H|[]]; discriminate H].
    split; [intros H; discriminate H|].
    intros (n' & r & _ & H & _). discriminate H. }
  destruct (filter (fun r => message_id r =? n) table) as [|r l] eqn:Hf; simpl.
  { assert (Hnone : forall r, In r table -> message_id r <> n).
    { intros r Hin He.
      assert (Hin' : In r (filter (fun r => message_id r =? n) table))
        by (apply filter_In; split; [exact Hin|now apply N.eqb_eq]).
      rewrite Hf in Hin'. contradiction. }
    split; [reflexivity|]. split; [intros H; discriminate H|].
    split; [intros n' e _ H; discriminate H|].
    split; [intros n' [= <-] _ _; auto|].
    split; [intros n' e r [= <-] _ Hin He _; now apply Hnone in Hin|].
    split; [intros n' r [= <-] _ _ Hin He; now apply Hnone in Hin|].
    split; [|intros n' ok [H|[]]; discriminate H].
    split; [intros H; discriminate H|].
    intros (n' & r & [= <-] & _ & _ & Hin & He). now apply Hnone in Hin. }
  assert (Hr : In r table /\ message_id r = n).
  { assert (Hin : In r (filter (fun r => message_id r =? n) table))
      by (rewrite Hf; now left).
    apply filter_In in Hin. destruct Hin as [Hin He].
    apply N.eqb_eq in He. auto. }
  assert (Hfound : forall n', Some n = Some n' ->
                     (forall r, In r table -> message_id r <> n') -> False).
  { intros n' [= <-] Hnone. destruct Hr as [Hin He]. now apply Hnone in Hin. }
  destruct del_err as [e|]; simpl.
  - split; [reflexivity|]. split; [intros H; discriminate H|].
    split; [intros n' e' _ H; discriminate H|].
    split; [intros n' Hn _ Hnone; destruct (Hfound n' Hn Hnone)|].
    split; [intros n' e' r' [= <-] _ _ _ [= <-]; auto|].
    split; [intros n' r' _ _ H; discriminate H|].
    split.
    + split; [intros H; discriminate H|].
      intros (n' & r' & _ & _ & H & _). discriminate H.
    + intros n' ok [H|[H|[]]]; [discriminate H|].
      injection H as <- _. exists r. exact Hr.
  - split; [reflexivity|]. split; [intros H; discriminate H|].
    split; [intros n' e' _ H; discriminate H|].
    split; [intros n' Hn _ Hnone; destruct (Hfound n' Hn Hnone)|].
    split; [intros n' e' r' _ _ _ _ H; discriminate H|].
    split.
    { intros n' r' [= <-] _ _ _ _. split; [reflexivity|].
      split; [|reflexivity].
      intros x. rewrite filter_In, negb_true_iff, N.eqb_neq. tauto. }
    split.
    + split; [|reflexivity].
      intros _. exists n, r. destruct Hr as [Hin He]. auto.
    + intros n' ok [H|[H|H]]; [discriminate H| |].
      * injection H as <- _. exists r. exact Hr.
      * destruct (truthy_url (file_url r)); [|contradiction].
        destruct H as [H|H]; [discriminate H|].
        destruct s3_ok; [contradiction|].
        destruct H as [H|[]]. discriminate H.
Qed.

End Delete.

Section Notify.

Import Notifications.

Variable Payload : Type.
Variable Listing : Type.

Lemma unread_count_marked (u v : N) (table : list (Notification Payload)) :
  unread_count v (mark_all_read u table) =
  if v =? u then 0 else unread_count v table.
Proof.
  unfold unread_count, mark_all_read.
  destruct (v =? u) eqn:E.
  - apply N.eqb_eq in E. subst v.
    induction table as [|n table IH]; simpl; [reflexivity|].
    destruct (user_id n =? u) eqn:En; simpl; rewrite ?En; simpl; exact IH.
  - f_equal.
    induction table as [|n table IH]; simpl; [reflexivity|].
    destruct (user_id n =? u) eqn:En; simpl.
    + assert (Hv : (user_id n =? v) = false).
      { apply N.eqb_eq in En. rewrite En, N.eqb_sym. exact E. }
      rewrite Hv. simpl. exact IH.
    + destruct ((user_id n =? v) && negb (is_read n)); simpl; now rewrite IH.
Qed.

(** X17.  Listing a user's notifications marks them read.  When the
    listing query and the update both succeed, the answer is 200 with
    the rows as the query returned them, and afterwards the count route
    answers 0 for that user and what it answered before for every other
    user.  When the listing query fails, or the update fails, the answer
    is 500 with the error's text and without data, and the table, and so
    every count, is as it was. *)
Theorem listing_resets_unread_count :
  forall (userId other : N) (listing : QueryResult Listing)
         (upd_err : option string) (table : list (Notification Payload)),
    let out := get_notifications userId listing upd_err table in
    (forall results, listing = QueryOk results -> upd_err = None ->
       snd out = mkResponse 200 true None (Some results) /\
       (forall n, In n (fst out) -> user_id n = userId -> is_read n = true) /\
       get_unread_count userId None (fst out)
       = mkResponse 200 true None (Some 0) /\
       (other <> userId ->
        get_unread_count other None (fst out)
        = get_unread_count other None table)) /\
    (forall e, listing = QueryErr e ->
       out = (table, mkResponse 500 false (Some e) None)) /\
    (forall results e, listing = QueryOk results -> upd_err = Some e ->
       out = (table, mkResponse 500 false (Some e) None)).
Proof.
  intros userId other listing upd_err table out. subst out.
  unfold get_notifications, get_unread_count.
  split; [|split].
  - intros results -> ->. simpl. split; [reflexivity|]. split; [|split].
    + intros n Hin. unfold mark_all_read in Hin.
      apply in_map_iff in Hin. destruct Hin as (n0 & <- & _).
      destruct (user_id n0 =? userId) eqn:E; [reflexivity|].
      apply N.eqb_neq in E. intros Hu. contradiction.
    + rewrite unread_count_marked, N.eqb_refl. reflexivity.
    + intros Hne. rewrite unread_count_marked.
      apply N.eqb_neq in Hne. now rewrite Hne.
  - intros e ->. reflexivity.
  - intros results e -> ->. reflexivity.
Qed.

End Notify.

Lemma listing_resets_unread_count_witness :
  let table := [Notifications.mkNotification unit 1 false tt;
                Notifications.mkNotification unit 2 false tt;
                Notifications.mkNotification unit 1 true tt] in
  let out := Notifications.get_notifications (Listing := nat) 1 (QueryOk 7%nat)
                                             None table in
  snd out = mkResponse 200 true None (Some 7%nat) /\
  Notifications.get_unread_count 1 None (fst out)
  = mkResponse 200 true None (Some 0) /\
  Notifications.get_unread_count 2 None (fst out)
  = Notifications.get_unread_count 2 None table.
Proof.
  intros table out.
  destruct (proj1 (listing_resets_unread_count unit nat 1 2 (QueryOk 7%nat)
                                               None table) 7%nat eq_refl eq_refl)
    as (Hresp & _ & Hzero & Hother).
  split; [exact Hresp|]. split; [exact Hzero|].
  apply Hother. discriminate.
Defined.

Lemma delete_route_removes_exactly_the_message_witness :
  let row := fun id url =>
    History.mkRow unit id 1 2 tt url tt tt tt tt tt tt tt tt tt tt tt in
  let table := [row 1 None; row 2 (Some "https://b.s3.r.amazonaws.com/chat/1_a.png");
                row 3 None] in
  let out := History.delete_message (Some 2) None None false table in
  In (row 2 (Some "https://b.s3.r.amazonaws.com/chat/1_a.png")) table /\
  fst (fst out) = [row 1 None; row 3 None] /\
  snd (fst out) = mkResponse 200 true None (Some "Message deleted successfully.").
Proof.
  intros row table out.
  assert (Hin : In (row 2 (Some "https://b.s3.r.amazonaws.com/chat/1_a.png"))
                   table) by (simpl; auto).
  destruct (delete_route_removes_exactly_the_message
              unit (Some 2) None None false true table)
    as (_ & _ & _ & _ & _ & Hok & _).
  destruct (Hok 2 _ eq_refl eq_refl eq_refl Hin eq_refl) as (Htable & _ & Hresp).
  split; [exact Hin|]. split; [exact Htable|exact Hresp].
Defined.

End RouteFacts.

Lemma group_is_conversation_witness :
  let row := fun id s r =>
    History.mkRow unit id s r tt None tt tt tt tt tt tt tt tt tt tt tt in
  let results := [row 10 1 2; row 11 3 1; row 12 2 1; row 13 1 3] in
  forallb (History.involves 1) results = true /\
  History.get 2 (History.group_messages (Some 1%Z) results)
  = Some [History.to_item (row 10 1 2); History.to_item (row 12 2 1)].
Proof.
  intros row results. split; [reflexivity|].
  apply (HistoryFacts.group_is_conversation unit 1 results 2). reflexivity.
Defined.
